(** * shipped: changelog entries for merged pull requests

    A shallow embedding of [src/entry.ts] and of [getAIConfig] from
    [src/index.ts], and the properties of the entry pipeline proved on it.

    Conventions of the embedding.
    - A JavaScript string is the list of its UTF-16 code units ([list N]);
      [lit] turns an ASCII literal into such a list.
    - [null] / [undefined] are [None]; the falsy string is the empty list.
    - A thrown exception is the [Throw] result; code that touches the file
      system runs in the monad [M], a state monad over the disk in which a
      throw keeps the state reached so far (JavaScript does not roll back).
    - The hosting API, the chat endpoint, the clock and [Date] parsing are
      inputs of the functions that use them. *)

From Stdlib Require Import List NArith ZArith String Ascii Bool Arith Lia.
From stdpp Require Import gmap.
Import ListNotations.

Abbreviation str := (list N).

(** ** JavaScript strings *)
Module JS.

Definition lit (s : string) : str := List.map N_of_ascii (list_ascii_of_string s).

Definition LF : N := 10%N.
Definition nl : str := [LF].

(** LineTerminator code units: LF, CR, LS, PS. *)
Definition is_line_terminator (c : N) : bool :=
  (c =? 10)%N || (c =? 13)%N || (c =? 8232)%N || (c =? 8233)%N.

(** WhiteSpace and LineTerminator code units, the set [String.prototype.trim]
    strips. *)
Definition is_ws (c : N) : bool :=
  ((9 <=? c) && (c <=? 13))%N || (c =? 32)%N || (c =? 160)%N || (c =? 5760)%N
  || ((8192 <=? c) && (c <=? 8202))%N || (c =? 8232)%N || (c =? 8233)%N
  || (c =? 8239)%N || (c =? 8287)%N || (c =? 12288)%N || (c =? 65279)%N.

Fixpoint drop_while (p : N -> bool) (s : str) : str :=
  match s with
  | [] => []
  | c :: s' => if p c then drop_while p s' else s
  end.

Definition trimStart (s : str) : str := drop_while is_ws s.
Definition trimEnd (s : str) : str := rev (drop_while is_ws (rev s)).
(** [s.trim()] *)
Definition trim (s : str) : str := trimEnd (trimStart s).

(** [l.join(sep)] *)
Fixpoint join (sep : str) (l : list str) : str :=
  match l with
  | [] => []
  | x :: t => match t with [] => x | _ :: _ => x ++ sep ++ join sep t end
  end.

(** [s.startsWith(p)] *)
Fixpoint startsWith (p s : str) : bool :=
  match p, s with
  | [], _ => true
  | _ :: _, [] => false
  | a :: p', b :: s' => (a =? b)%N && startsWith p' s'
  end.

(** [s.split(sep)[0]] for a non-empty separator: the text before the first
    occurrence of [sep], or all of [s] when there is none. *)
Fixpoint split_head (sep s : str) : str :=
  if startsWith sep s then []
  else match s with
       | [] => []
       | c :: s' => c :: split_head sep s'
       end.

(** [a || b] on strings: the empty string is the only falsy one. *)
Definition or_else (a b : str) : str :=
  match a with [] => b | _ :: _ => a end.

(** [o || b] where [o] may be [null] or [undefined]. *)
Definition opt_or_else (o : option str) (b : str) : str :=
  match o with Some a => or_else a b | None => b end.

(** [a.slice(0, n)] on arrays, [s.slice(n)] and [s.substring(a, b)] on
    strings. *)
Definition slice_to {A} (n : nat) (l : list A) : list A := firstn n l.
Definition slice_from (n : nat) (s : str) : str := skipn n s.
Definition substring (a b : nat) (s : str) : str := firstn (b - a) (skipn a s).

(** [[...new Set(l)]]: the distinct elements in order of first occurrence. *)
Fixpoint set_spread_from (seen l : list str) : list str :=
  match l with
  | [] => []
  | x :: t => if decide (x ∈ seen) then set_spread_from seen t
              else x :: set_spread_from (x :: seen) t
  end.
Definition set_spread (l : list str) : list str := set_spread_from [] l.

End JS.

(** ** Regular expressions, with the backtracking semantics of ECMAScript *)
Module Regex.

Inductive regex :=
| Bos                      (* ^ without the m flag *)
| Chr (p : N -> bool)      (* a character, a class or . *)
| Seq (a b : regex)
| Alt (a b : regex)        (* a|b, a tried first *)
| Star (a : regex).        (* a*, greedy *)

Definition Plus (a : regex) : regex := Seq a (Star a).

(** The greedy loop of [a*]. [m] matches one iteration of the body. An
    iteration that consumes nothing is rejected, as RepeatMatcher does, so at
    most [length s] iterations can happen and [n] bounds them. *)
Fixpoint star_loop {X} (m : nat -> str -> (nat -> str -> option X) -> option X)
    (k : nat -> str -> option X) (n : nat) (i : nat) (s : str) : option X :=
  match n with
  | O => k i s
  | S n' =>
      match m i s (fun j s1 => if (length s1 <? length s)%nat
                               then star_loop m k n' j s1 else None) with
      | Some x => Some x
      | None => k i s
      end
  end.

(** [rmatch r i s k]: match [r] at index [i], where [s] is the input from [i]
    on; [k] is the continuation, given the end index and the rest of the
    input, and [None] makes the matcher backtrack. *)
Fixpoint rmatch {X} (r : regex) (i : nat) (s : str)
    (k : nat -> str -> option X) : option X :=
  match r with
  | Bos => if (i =? 0)%nat then k i s else None
  | Chr p => match s with
             | c :: s' => if p c then k (S i) s' else None
             | [] => None
             end
  | Seq a b => rmatch a i s (fun j s1 => rmatch b j s1 k)
  | Alt a b => match rmatch a i s k with
               | Some x => Some x
               | None => rmatch b i s k
               end
  | Star a => star_loop (rmatch a) k (length s) i s
  end.

(** RegExpBuiltinExec for a regex without the g and y flags: the first start
    index, from 0 on, at which the pattern matches; the result is the pair of
    the start and the end index. [s] is the input from [i] on. *)
Fixpoint exec_from (r : regex) (i : nat) (s : str) : option (nat * nat) :=
  match rmatch r i s (fun e _ => Some e) with
  | Some e => Some (i, e)
  | None => match s with
            | [] => None
            | _ :: s' => exec_from r (S i) s'
            end
  end.

(** [s.match(r)], reduced to element 0 of the result, the matched text. *)
Definition match0 (r : regex) (s : str) : option str :=
  match exec_from r 0 s with
  | Some (b, e) => Some (JS.substring b e s)
  | None => None
  end.

Definition dot : regex := Chr (fun c => negb (JS.is_line_terminator c)).
Definition chr (c : N) : regex := Chr (N.eqb c).
Definition not_chr (c : N) : regex := Chr (fun x => negb (N.eqb c x)).

End Regex.

(** ** Exceptions and effects *)
Module Eff.

Inductive exn :=
| Error (message : str)          (* throw new Error(message) *)
| RangeError (message : str)     (* Date.prototype.toISOString on an invalid date *)
| RequestError (message : str)   (* a rejected request of an API client *)
| SystemError (code : str).      (* a failed fs call *)

Inductive result (A : Type) :=
| Ok (a : A)
| Throw (e : exn).
Arguments Ok {A} a.
Arguments Throw {A} e.

Definition bindR {A B} (c : result A) (f : A -> result B) : result B :=
  match c with
  | Ok a => f a
  | Throw e => Throw e
  end.

(** What a path of the disk holds. Reading a directory fails with EISDIR,
    and so does writing to it. *)
Inductive node :=
| File (content : str)
| Dir.

(** The disk: what its paths hold; for a path that holds nothing, the error
    with which the system refuses to create a file there, such as ENOENT
    when the directory of the path is missing, or [None] when the file can
    be created; and the log of the [writeFileSync] calls that were carried
    out, oldest first. *)
Record disk := Disk {
  files : gmap (list N) node;
  uncreatable : list N -> option exn;
  writes : list (str * str)
}.

Definition M (A : Type) : Type := disk -> result A * disk.

Definition ret {A} (a : A) : M A := fun d => (Ok a, d).
Definition throw {A} (e : exn) : M A := fun d => (Throw e, d).
Definition bind {A B} (c : M A) (f : A -> M B) : M B :=
  fun d => match c d with
           | (Ok a, d') => f a d'
           | (Throw e, d') => (Throw e, d')
           end.
(** An awaited computation that does not touch the disk. *)
Definition lift {A} (r : result A) : M A := fun d => (r, d).

Definition existsSync (path : str) : M bool :=
  fun d => (Ok (match files d !! path with Some _ => true | None => false end), d).

Definition readFileSync (path : str) : M str :=
  fun d => match files d !! path with
           | Some (File c) => (Ok c, d)
           | Some Dir => (Throw (SystemError (JS.lit "EISDIR")), d)
           | None => (Throw (SystemError (JS.lit "ENOENT")), d)
           end.

Definition writeFileSync (path content : str) : M unit :=
  fun d =>
    let done := (Ok tt, {| files := <[path := File content]> (files d);
                           uncreatable := uncreatable d;
                           writes := writes d ++ [(path, content)] |}) in
    match files d !! path with
    | Some Dir => (Throw (SystemError (JS.lit "EISDIR")), d)
    | Some (File _) => done
    | None => match uncreatable d path with
              | Some e => (Throw e, d)
              | None => done
              end
    end.

End Eff.

Declare Scope result_scope.
Delimit Scope result_scope with result.
Notation "x <- c ;; k" := (Eff.bindR c (fun x => k))
  (at level 100, c at next level, right associativity) : result_scope.
Declare Scope io_scope.
Delimit Scope io_scope with io.
Notation "x <- c ;; k" := (Eff.bind c (fun x => k))
  (at level 100, c at next level, right associativity) : io_scope.
Notation "c ;; k" := (Eff.bind c (fun _ => k))
  (at level 100, right associativity) : io_scope.

(** ** [src/index.ts]: the configuration of the model endpoint *)
Module Index.
Import JS Eff.

Record AIConfig := {
  apiKey : str;
  baseURL : str;
  model : str
}.

Section GetAIConfig.
(** [core.getInput(name, { required })] of the actions toolkit: the value of
    the input (the empty string when it is not set), or a throw. *)
Variable getInput : str -> bool -> result str.

Definition getAIConfig : result AIConfig :=
  (apiKey <- getInput (lit "api-key") true ;;
   provider0 <- getInput (lit "provider") false ;;
   let provider := or_else provider0 (lit "openai") in
   model0 <- getInput (lit "model") false ;;
   let model := or_else model0 (lit "gpt-4o-mini") in
   baseURL <-
     (if decide (provider = lit "openai") then
        Ok (lit "https://api.openai.com/v1")
      else if decide (provider = lit "openrouter") then
        Ok (lit "https://openrouter.ai/api/v1")
      else if startsWith (lit "http") provider then
        Ok provider
      else
        Throw (Error (lit "Unknown provider: " ++ provider ++
                      lit ". Use 'openai', 'openrouter', or a custom URL."))) ;;
   Ok {| apiKey := apiKey; baseURL := baseURL; model := model |})%result.
End GetAIConfig.

End Index.

(** ** [src/entry.ts] *)
Module Entry.
Import JS Eff Regex.

Record User := { login : str }.
Record Label := { name : str }.

Module PRData.
Record t := {
  number : Z;
  title : str;
  body : option str;
  user : option User;
  merged_at : option str;
  labels : option (list Label)
}.
End PRData.

Module PullRequestDetails.
Record t := {
  title : str;
  body : str;
  author : str;
  reviewers : list str;
  commits : list str;
  filesChanged : list str;
  labels : list str;
  mergedAt : str
}.
End PullRequestDetails.
Import PullRequestDetails.

(** The items of the three listings of the hosting API, with the fields the
    code reads: [c.commit.message], [r.state], [r.user?.login], [f.filename]. *)
Record Commit := { message : str }.
Module Review.
Record t := { state : str; user : option User }.
End Review.
Record ChangedFile := { filename : str }.

(** [octokit.rest.pulls], for the repository of the context: each listing is
    given the pull request number and returns its data or is rejected. *)
Record Octokit := {
  listCommits : Z -> result (list Commit);
  listReviews : Z -> result (list Review.t);
  listFiles : Z -> result (list ChangedFile)
}.

(** [response.choices] of a chat completion. *)
Record Message := { content : option str }.
Record Choice := { choice_message : option Message }.

Record GenerateEntryOptions := {
  pr : PRData.t;
  octokit : Octokit;
  aiConfig : Index.AIConfig;
  changelogPath : str
}.

(** [.filter((login): login is string => !!login)] *)
Fixpoint filter_truthy (l : list (option str)) : list str :=
  match l with
  | [] => []
  | Some (c :: s) :: t => (c :: s) :: filter_truthy t
  | _ :: t => filter_truthy t
  end.

(** [r.user?.login] *)
Definition user_login (u : option User) : option str :=
  match u with Some v => Some (login v) | None => None end.

(** The [reviewers] of [fetchPRDetails]. *)
Definition reviewers_of (reviews : list Review.t) : list str :=
  set_spread
    (filter_truthy
       (List.map (fun r => user_login (Review.user r))
          (List.filter (fun r => bool_decide (Review.state r = lit "APPROVED"))
             reviews))).

Section Runtime.
(** [new Date().toISOString()], the time of the run. *)
Variable now : str.
(** [new Date(s).toISOString()]; [None] when [s] is not a date, where
    toISOString throws a RangeError. *)
Variable toISOString : str -> option str.
(** [openai.chat.completions.create] for the client built from the
    configuration, with the fixed system message, temperature and token
    limit, and the given user message; it returns [response.choices]. *)
Variable create : Index.AIConfig -> str -> result (list Choice).

Definition fetchPRDetails (pr : PRData.t) (octokit : Octokit)
    : result PullRequestDetails.t :=
  (commits <- listCommits octokit (PRData.number pr) ;;
   reviews <- listReviews octokit (PRData.number pr) ;;
   files <- listFiles octokit (PRData.number pr) ;;
   let reviewers := reviewers_of reviews in
   Ok {| title := PRData.title pr;
         body := opt_or_else (PRData.body pr) [];
         author := opt_or_else (user_login (PRData.user pr)) (lit "unknown");
         reviewers := reviewers;
         commits := List.map message commits;
         filesChanged := List.map filename files;
         labels := List.map name (match PRData.labels pr with
                                  | Some l => l
                                  | None => []
                                  end);
         mergedAt := opt_or_else (PRData.merged_at pr) now |})%result.

(** The [commitSummary] and [filesSummary] of [buildPrompt]. *)
Definition commitSummary (details : PullRequestDetails.t) : str :=
  join nl (List.map (fun c => lit "- " ++ split_head nl c)
             (slice_to 5 (commits details))).

Definition filesSummary (details : PullRequestDetails.t) : str :=
  join (lit ", ") (slice_to 10 (filesChanged details)).

Definition buildPrompt (details : PullRequestDetails.t) : str :=
  lit "Generate a changelog entry for this merged pull request:" ++ nl ++
  nl ++
  lit "**Title:** " ++ title details ++ nl ++
  nl ++
  lit "**Description:**" ++ nl ++
  or_else (body details) (lit "No description provided.") ++ nl ++
  nl ++
  lit "**Commits:**" ++ nl ++
  commitSummary details ++ nl ++
  nl ++
  lit "**Files changed:** " ++ filesSummary details ++ nl ++
  nl ++
  lit "**Labels:** " ++ or_else (join (lit ", ") (labels details)) (lit "none") ++ nl ++
  nl ++
  lit "Write a user-friendly changelog entry with:" ++ nl ++
  lit "1. A short, descriptive title (with appropriate emoji)" ++ nl ++
  lit "2. 1-2 sentences explaining the change in plain language" ++ nl ++
  lit "3. Optional: 2-3 bullet points if there are multiple aspects" ++ nl ++
  nl ++
  lit "Focus on the user impact, not implementation details.".

(** [' • '], with the bullet U+2022. *)
Definition bullet_sep : str := [32; 8226; 32]%N.

(** The [contributors] and the [attribution] of [formatEntry]. *)
Definition contributors (details : PullRequestDetails.t) : str :=
  join bullet_sep
    (List.map (fun u => lit "@" ++ u) (author details :: reviewers details)).

Definition attribution (details : PullRequestDetails.t) : str :=
  if (0 <? length (reviewers details))%nat then
    lit "**Shipped by** " ++ split_head bullet_sep (contributors details) ++
    bullet_sep ++ lit "**Reviewed by** " ++
    join (lit ", ") (List.map (fun r => lit "@" ++ r) (reviewers details))
  else
    lit "**Shipped by** @" ++ author details.

Definition formatEntry (aiContent : str) (details : PullRequestDetails.t)
    : result str :=
  (iso <- match toISOString (mergedAt details) with
          | Some s => Ok s
          | None => Throw (RangeError (lit "Invalid time value"))
          end ;;
   let date := split_head (lit "T") iso in
   Ok (lit "## " ++ date ++ nl ++
       nl ++
       trim aiContent ++ nl ++
       nl ++
       attribution details ++ nl ++
       nl ++
       lit "---" ++ nl ++
       nl))%result.

(** [response.choices[0]?.message?.content] *)
Definition first_content (choices : list Choice) : option str :=
  match choices with
  | [] => None
  | c :: _ => match choice_message c with
              | Some m => content m
              | None => None
              end
  end.

Definition generateWithAI (details : PullRequestDetails.t)
    (aiConfig : Index.AIConfig) : result str :=
  (let prompt := buildPrompt details in
   choices <- create aiConfig prompt ;;
   match first_content choices with
   | None | Some [] => Throw (Error (lit "No response from OpenAI"))
   | Some content => formatEntry content details
   end)%result.

(** [/^# .+\n+(?:(?:>.+\n+)|(?:[^#].+\n+))*/] *)
Definition header_re : regex :=
  Seq Bos (Seq (chr 35) (Seq (chr 32) (Seq (Plus dot) (Seq (Plus (chr 10))
    (Star (Alt (Seq (chr 62) (Seq (Plus dot) (Plus (chr 10))))
               (Seq (not_chr 35) (Seq (Plus dot) (Plus (chr 10)))))))))).

Definition default_header : str :=
  lit "# Changelog" ++ nl ++
  nl ++
  lit "All notable changes to this project." ++ nl ++
  nl ++
  lit "---" ++ nl ++
  nl.

(** The [newContent] of [prependToChangelog]. *)
Definition newContent (entry existingContent : str) : str :=
  match match0 header_re existingContent with
  | Some header =>
      let rest := slice_from (length header) existingContent in
      header ++ entry ++ rest
  | None =>
      match trim existingContent with
      | [] => default_header ++ entry
      | _ :: _ => entry ++ existingContent
      end
  end.

(** The two [core.info] calls of the pipeline write to the log of the run
    only and are left out. *)
Definition prependToChangelog (entry changelogPath : str) : M unit :=
  (found <- existsSync changelogPath ;;
   existingContent <- (if found then readFileSync changelogPath else ret []) ;;
   writeFileSync changelogPath (newContent entry existingContent))%io.

Definition generateEntry (options : GenerateEntryOptions) : M str :=
  (details <- lift (fetchPRDetails (pr options) (octokit options)) ;;
   entry <- lift (generateWithAI details (aiConfig options)) ;;
   prependToChangelog entry (changelogPath options) ;;
   ret entry)%io.
End Runtime.

End Entry.

(** ** The statements of the specification, and sample data *)
Module Spec.
Import JS Eff Regex Entry.
Import PullRequestDetails.

(** [s.split('\n')]: the lines of a text. *)
Fixpoint split_lines (s : str) : list str :=
  match s with
  | [] => [[]]
  | c :: s' =>
      if (c =? LF)%N then [] :: split_lines s'
      else match split_lines s' with
           | l :: ls => (c :: l) :: ls
           | [] => [[c]]
           end
  end.

(** A text without line terminators. *)
Definition plain (s : str) : bool := forallb (fun c => negb (is_line_terminator c)) s.

(** A login, or any text, without a space. *)
Definition no_space (s : str) : bool := forallb (fun c => negb (c =? 32)%N) s.

(** A run of one or more line feeds. *)
Definition gap (n : nat) : str := repeat LF (S n).

(** The document starts with a level-1 heading line that the line feed ends:
    [# ], at least one character, LF. *)
Definition has_h1 (doc : str) : bool :=
  match doc with
  | c1 :: c2 :: c :: s =>
      (35 =? c1)%N && (32 =? c2)%N && negb (is_line_terminator c) &&
      startsWith nl (drop_while (fun x => negb (is_line_terminator x)) s)
  | _ => false
  end.

(** A line of the header block below the heading: at least two characters,
    none a line terminator, the first not [#]. *)
Definition block_line (l : str) : bool :=
  match l with
  | c :: _ :: _ => negb (35 =? c)%N && plain l
  | _ => false
  end.

(** The lines below the heading, each with the line feeds that follow it. *)
Definition block_lines (p : list (str * nat)) : str :=
  concat (List.map (fun ln => fst ln ++ gap (snd ln)) p).

(** The header block: the heading line, the line feeds after it and the
    lines below it. *)
Definition header_block (title : str) (n : nat) (p : list (str * nat)) : str :=
  lit "# " ++ title ++ gap n ++ block_lines p.

(** What may follow the header block: nothing, or a line that starts
    with [#]. *)
Definition at_heading (rest : str) : bool :=
  match rest with
  | [] => true
  | c :: _ => (35 =? c)%N
  end.

(** The header+preamble block in the words of the specification: the first
    line, and the lines after it up to the first heading or entry
    separator. *)
Definition is_heading_line (l : str) : bool := startsWith (lit "#") l.
Definition is_separator_line (l : str) : bool := bool_decide (l = lit "---").

Fixpoint take_preamble (ls : list str) : list str :=
  match ls with
  | [] => []
  | l :: t => if is_heading_line l || is_separator_line l then []
              else l :: take_preamble t
  end.

Definition first_line_is_h1 (doc : str) : bool :=
  match split_lines doc with
  | l :: _ => startsWith (lit "# ") l && (2 <? length l)%nat
  | [] => false
  end.

Definition spec_block (doc : str) : str :=
  match split_lines doc with
  | [] => []
  | h :: ls => concat (List.map (fun l => l ++ nl) (h :: take_preamble ls))
  end.

Definition spec_merge (entry doc : str) : str :=
  spec_block doc ++ entry ++ slice_from (length (spec_block doc)) doc.

(** The reviewer set in the words of the specification: [l] is a login of a
    review whose state is the given one. *)
Definition reviewed_with (st : string) (reviews : list Review.t) (l : str) : Prop :=
  l <> [] /\
  exists r, In r reviews /\ Review.state r = lit st /\
            Review.user r = Some {| login := l |}.

(** Sample data. *)
Definition details_of (a : str) (rs cs : list str) : PullRequestDetails.t :=
  {| title := lit "Add dark mode"; body := []; author := a; reviewers := rs;
     commits := cs; filesChanged := [lit "src/theme.ts"]; labels := [];
     mergedAt := lit "2024-03-01T00:00:00Z" |}.

Definition seven_commits : list str :=
  [lit "one" ++ nl ++ lit "more text"; lit "two"; lit "three"; lit "four";
   lit "five"; lit "six"; lit "seven"].

Definition review (st who : string) : Review.t :=
  {| Review.state := lit st; Review.user := Some {| login := lit who |} |}.

Definition sample_pr (u : option User) : PRData.t :=
  {| PRData.number := 42; PRData.title := lit "Add dark mode";
     PRData.body := None; PRData.user := u;
     PRData.merged_at := Some (lit "2024-03-01T00:00:00Z");
     PRData.labels := None |}.

Definition sample_octokit (n : nat) : Octokit :=
  {| listCommits := fun _ => Ok (List.map (fun c => {| message := c |})
                                   (firstn n seven_commits));
     listReviews := fun _ => Ok [review "APPROVED" "bob"; review "COMMENTED" "dan";
                                 review "APPROVED" "bob"; review "APPROVED" "carol"];
     listFiles := fun _ => Ok [{| filename := lit "src/theme.ts" |}] |}.

Definition sample_config : Index.AIConfig :=
  {| Index.apiKey := lit "key"; Index.baseURL := lit "https://api.openai.com/v1";
     Index.model := lit "gpt-4o-mini" |}.

Definition sample_iso (s : str) : option str := Some (lit "2024-03-01T00:00:00.000Z").

Definition sample_create (text : option str) (_ : Index.AIConfig) (_ : str)
    : result (list Choice) :=
  Ok [{| choice_message := Some {| content := text |} |}].

Definition sample_options (n : nat) : GenerateEntryOptions :=
  {| pr := sample_pr (Some {| login := lit "alice" |});
     octokit := sample_octokit n;
     aiConfig := sample_config;
     changelogPath := lit "CHANGELOG.md" |}.

Definition empty_disk : disk :=
  {| files := ∅; uncreatable := fun _ => None; writes := [] |}.

Definition old_entry : str :=
  lit "## 2024-02-01" ++ nl ++ nl ++ lit "Old." ++ nl ++ nl ++ lit "---" ++ nl ++ nl.

Definition sample_inputs (provider : string) (name : str) (required : bool)
    : result str :=
  if decide (name = lit "api-key") then Ok (lit "key")
  else if decide (name = lit "provider") then Ok (lit provider)
  else Ok [].

Definition approved (who : str) : Review.t :=
  {| Review.state := lit "APPROVED"; Review.user := Some {| login := who |} |}.

Definition at_name (r : str) : str := lit "@" ++ r.

(** A text without a line feed. *)
Definition no_lf (s : str) : bool := forallb (fun c => negb (c =? LF)%N) s.

(** The first line of a commit message, and its line in the summary. *)
Definition first_line (c : str) : str := split_head nl c.
Definition summary_line (c : str) : str := lit "- " ++ first_line c.

(** The fixed text of the prompt around its five slots: title, description,
    commits, files and labels. *)
Definition prompt_template (t b c f l : str) : str :=
  lit "Generate a changelog entry for this merged pull request:" ++ nl ++ nl ++
  lit "**Title:** " ++ t ++ nl ++ nl ++
  lit "**Description:**" ++ nl ++ b ++ nl ++ nl ++
  lit "**Commits:**" ++ nl ++ c ++ nl ++ nl ++
  lit "**Files changed:** " ++ f ++ nl ++ nl ++
  lit "**Labels:** " ++ l ++ nl ++ nl ++
  lit "Write a user-friendly changelog entry with:" ++ nl ++
  lit "1. A short, descriptive title (with appropriate emoji)" ++ nl ++
  lit "2. 1-2 sentences explaining the change in plain language" ++ nl ++
  lit "3. Optional: 2-3 bullet points if there are multiple aspects" ++ nl ++ nl ++
  lit "Focus on the user impact, not implementation details.".

(** The greedy loop of a character class stops in front of [s]. *)
Definition stops (p : N -> bool) (s : str) : bool :=
  match s with
  | [] => true
  | c :: _ => negb (p c)
  end.

(** The two parts of the header pattern: a line below the heading, whose
    first character is in the class [first], and the loop body. *)
Definition line_re (first : N -> bool) : regex :=
  Seq (Chr first) (Seq (Plus dot) (Plus (chr 10))).
Definition body_re : regex := Alt (line_re (N.eqb 62)) (line_re (fun x => negb (N.eqb 35 x))).

(** The disk after one [writeFileSync] of [content] to [path]. *)
Definition written (d : disk) (path content : str) : disk :=
  {| files := <[path := File content]> (files d);
     uncreatable := uncreatable d;
     writes := writes d ++ [(path, content)] |}.

Definition disk_with (path content : str) : disk :=
  {| files := {[ path := File content ]}; uncreatable := fun _ => None;
     writes := [] |}.

(** An empty disk on which the directory of [path] is missing. *)
Definition disk_without_directory (path : str) : disk :=
  {| files := ∅;
     uncreatable := fun q => if decide (q = path)
                             then Some (SystemError (lit "ENOENT")) else None;
     writes := [] |}.

Definition sample_entry : str :=
  lit "## 2024-03-01" ++ nl ++ nl ++ lit "New." ++ nl ++ nl ++
  lit "**Shipped by** @alice" ++ nl ++ nl ++ lit "---" ++ nl ++ nl.

(** The changelog that the code itself starts: the default header and one
    entry. *)
Definition sample_doc : str := default_header ++ old_entry.

(** The text of the description slot and of the labels slot. *)
Definition body_text (d : PullRequestDetails.t) : str :=
  match body d with
  | [] => lit "No description provided."
  | _ :: _ => body d
  end.

Definition labels_text (d : PullRequestDetails.t) : str :=
  match join (lit ", ") (labels d) with
  | [] => lit "none"
  | _ :: _ => join (lit ", ") (labels d)
  end.

End Spec.

(** ** [src/index.ts]: the entry point [run] *)
Module Run.
Import JS Eff Entry.

(** [context.payload.pull_request], with the fields [run] reads. *)
Module Payload.
Record t := {
  merged : bool;
  number : Z;
  title : str;
  body : option str;
  user : option User;
  merged_at : option str;
  labels : option (list Label)
}.
End Payload.

(** What a run leaves for the workflow: [core.setOutput] and
    [core.setFailed]. The log lines of [core.info] and [core.warning] are
    left out, as in the pipeline. *)
Inductive action :=
| SetOutput (name value : str)
| SetFailed (message : str).

(** The state of a run: the disk and the actions so far, oldest first. *)
Record world := World {
  w_disk : disk;
  actions : list action
}.

Definition W (A : Type) : Type := world -> result A * world.

Definition retW {A} (a : A) : W A := fun w => (Ok a, w).
Definition throwW {A} (e : exn) : W A := fun w => (Throw e, w).
Definition bindW {A B} (c : W A) (f : A -> W B) : W B :=
  fun w => match c w with
           | (Ok a, w') => f a w'
           | (Throw e, w') => (Throw e, w')
           end.
Definition liftR {A} (r : result A) : W A := fun w => (r, w).
Definition liftM {A} (c : M A) : W A :=
  fun w => match c (w_disk w) with
           | (r, d') => (r, {| w_disk := d'; actions := actions w |})
           end.
Definition emit (a : action) : W unit :=
  fun w => (Ok tt, {| w_disk := w_disk w; actions := actions w ++ [a] |}).

(** [s.split(c)] for a separator of one character. *)
Fixpoint split_char (sep : N) (s : str) : list str :=
  match s with
  | [] => [[]]
  | c :: s' =>
      if (c =? sep)%N then [] :: split_char sep s'
      else match split_char sep s' with
           | l :: ls => (c :: l) :: ls
           | [] => [[c]]
           end
  end.

(** [Boolean(s)] on a string. *)
Definition truthy (s : str) : bool :=
  match s with [] => false | _ :: _ => true end.

(** [input.split(',').map(l => l.trim()).filter(Boolean)] *)
Definition label_list (input : str) : list str :=
  List.filter truthy (List.map trim (split_char 44 input)).

(** [labels.some(label => prLabels.includes(label))] *)
Definition some_included (labels prLabels : list str) : bool :=
  existsb (fun label => bool_decide (label ∈ prLabels)) labels.

End Run.

Declare Scope run_scope.
Delimit Scope run_scope with run.
Notation "x <- c ;; k" := (Run.bindW c (fun x => k))
  (at level 100, c at next level, right associativity) : run_scope.
Notation "c ;; k" := (Run.bindW c (fun _ => k))
  (at level 100, right associativity) : run_scope.

Module Main.
Import JS Eff Entry Run.

Section Run.
(** [core.getInput], as for [getAIConfig]. *)
Variable getInput : str -> bool -> result str.
(** [process.env.GITHUB_TOKEN] *)
Variable token : option str.
(** [github.getOctokit(token)] *)
Variable getOctokit : str -> Octokit.
(** [github.context.payload.pull_request] *)
Variable pull_request : option Payload.t.
(** The clock, [Date] and the chat endpoint, as for the pipeline. *)
Variable now : str.
Variable toISOString : str -> option str.
Variable create : Index.AIConfig -> str -> result (list Choice).
(** [generateWeeklyDigest] of [./weekly], given the client, the
    configuration, the changelog path and the weekly path. *)
Variable generateWeeklyDigest : Octokit -> Index.AIConfig -> str -> str -> W str.
(** [error.message] of a failed fs call with the given code. *)
Variable fs_message : str -> str.

(** [error.message]; every exception of the model is an [Error], so the
    branch of [run] for other thrown values is never taken. *)
Definition message_of (e : exn) : str :=
  match e with
  | Error m | RangeError m | RequestError m => m
  | SystemError code => fs_message code
  end.

Definition skip : W unit := emit (SetOutput (lit "updated") (lit "false")).

(** The body of the [try] of [run]. *)
Definition run_body : W unit :=
  (mode <- liftR (getInput (lit "mode") true) ;;
   aiConfig <- liftR (Index.getAIConfig getInput) ;;
   changelogPath0 <- liftR (getInput (lit "changelog-path") false) ;;
   let changelogPath := or_else changelogPath0 (lit "CHANGELOG.md") in
   weeklyPath0 <- liftR (getInput (lit "weekly-path") false) ;;
   let weeklyPath := or_else weeklyPath0 (lit "WEEKLY.md") in
   include0 <- liftR (getInput (lit "include-labels") false) ;;
   let includeLabels := label_list include0 in
   exclude0 <- liftR (getInput (lit "exclude-labels") false) ;;
   let excludeLabels := label_list exclude0 in
   match token with
   | None | Some [] =>
       throwW (Error (lit "GITHUB_TOKEN environment variable is required"))
   | Some (c :: t) =>
       let octokit := getOctokit (c :: t) in
       if decide (mode = lit "entry") then
         match pull_request with
         | None => skip
         | Some prPayload =>
             if negb (Payload.merged prPayload) then skip
             else
               let prLabels :=
                 List.map name (match Payload.labels prPayload with
                                | Some l => l
                                | None => []
                                end) in
               if some_included excludeLabels prLabels then skip
               else if (0 <? length includeLabels)%nat
                       && negb (some_included includeLabels prLabels) then skip
               else
                 let pr :=
                   {| PRData.number := Payload.number prPayload;
                      PRData.title := Payload.title prPayload;
                      PRData.body := match Payload.body prPayload with
                                     | Some (c :: b) => Some (c :: b)
                                     | _ => None
                                     end;
                      PRData.user := Payload.user prPayload;
                      PRData.merged_at := match Payload.merged_at prPayload with
                                          | Some (c :: b) => Some (c :: b)
                                          | _ => None
                                          end;
                      PRData.labels := Payload.labels prPayload |} in
                 entry <- liftM (generateEntry now toISOString create
                                   {| pr := pr; octokit := octokit;
                                      aiConfig := aiConfig;
                                      changelogPath := changelogPath |}) ;;
                 emit (SetOutput (lit "entry") entry) ;;
                 emit (SetOutput (lit "updated") (lit "true"))
         end
       else if decide (mode = lit "weekly") then
         _ <- generateWeeklyDigest octokit aiConfig changelogPath weeklyPath ;;
         emit (SetOutput (lit "updated") (lit "true"))
       else
         throwW (Error (lit "Unknown mode: " ++ mode ++
                        lit ". Use 'entry' or 'weekly'."))
   end)%run.

(** [run]: the body, and the [catch] that reports the message. *)
Definition run (w : world) : world :=
  match run_body w with
  | (Ok _, w') => w'
  | (Throw e, w') =>
      {| w_disk := w_disk w'; actions := actions w' ++ [SetFailed (message_of e)] |}
  end.
End Run.

End Main.

(** Sample data for [run]. *)
Module RunSamples.
Import JS Eff Entry Run.

Definition run_inputs (mode include exclude : string) (name : str) (required : bool)
    : result str :=
  if decide (name = lit "mode") then Ok (lit mode)
  else if decide (name = lit "api-key") then Ok (lit "key")
  else if decide (name = lit "include-labels") then Ok (lit include)
  else if decide (name = lit "exclude-labels") then Ok (lit exclude)
  else Ok [].

(** Inputs without the required [mode], and with a provider that is not
    known. *)
Definition inputs_without_mode (name : str) (required : bool) : result str :=
  if decide (name = lit "mode")
  then Throw (Error (lit "Input required and not supplied: mode"))
  else Ok (lit "nowhere").

Definition sample_payload (merged : bool) (labels : list string) : Payload.t :=
  {| Payload.merged := merged; Payload.number := 42;
     Payload.title := lit "Add dark mode"; Payload.body := Some [];
     Payload.user := Some {| login := lit "alice" |};
     Payload.merged_at := Some (lit "2024-03-01T00:00:00Z");
     Payload.labels := Some (List.map (fun l => {| name := lit l |}) labels) |}.

Definition no_digest (_ : Octokit) (_ : Index.AIConfig) (_ _ : str) : W str :=
  retW [].

Definition fresh_world : world := {| w_disk := Spec.empty_disk; actions := [] |}.

Definition sample_run (mode include exclude : string) (token : option str)
    (pull_request : option Payload.t) (text : option str) : world :=
  Main.run (run_inputs mode include exclude) token (fun _ => Spec.sample_octokit 7)
    pull_request [] Spec.sample_iso (Spec.sample_create text) no_digest
    (fun code => code) fresh_world.

End RunSamples.

(** * Properties *)
Import JS Eff Regex Entry Spec.
Import PullRequestDetails.

(** ** Strings *)

Lemma startsWith_app (p s : str) : startsWith p (p ++ s) = true.
Proof.
  induction p as [|a p IH]; simpl; [reflexivity|].
  now rewrite N.eqb_refl, IH.
Qed.

Lemma split_head_before_sep (a x : str) :
  no_space a = true ->
  split_head bullet_sep (a ++ bullet_sep ++ x) = a.
Proof.
  induction a as [|c a IH]; intros Ha.
  - change ([] ++ bullet_sep ++ x) with (bullet_sep ++ x).
    destruct x; reflexivity.
  - simpl in Ha. apply andb_prop in Ha as [Hc Ha].
    change ((c :: a) ++ bullet_sep ++ x) with (c :: (a ++ bullet_sep ++ x)).
    cbn [split_head]. unfold bullet_sep at 1. cbn [startsWith].
    apply negb_true_iff in Hc. rewrite N.eqb_sym, Hc. cbn [andb].
    now rewrite IH.
Qed.

Lemma join_cons2 (sep x y : str) (l : list str) :
  join sep (x :: y :: l) = x ++ sep ++ join sep (y :: l).
Proof. reflexivity. Qed.

(** ** The aggregation of the details *)

Section Fetch.
Variables (now : str) (pr : PRData.t) (octokit : Octokit).
Variables (cs : list Commit) (rs : list Review.t) (fs : list ChangedFile).
Hypothesis Hcs : listCommits octokit (PRData.number pr) = Ok cs.
Hypothesis Hrs : listReviews octokit (PRData.number pr) = Ok rs.
Hypothesis Hfs : listFiles octokit (PRData.number pr) = Ok fs.

Lemma fetchPRDetails_ok :
  fetchPRDetails now pr octokit =
  Ok {| title := PRData.title pr;
        body := opt_or_else (PRData.body pr) [];
        author := opt_or_else (user_login (PRData.user pr)) (lit "unknown");
        reviewers := reviewers_of rs;
        commits := List.map message cs;
        filesChanged := List.map filename fs;
        labels := List.map name (match PRData.labels pr with
                                 | Some l => l
                                 | None => []
                                 end);
        mergedAt := opt_or_else (PRData.merged_at pr) now |}.
Proof. unfold fetchPRDetails. now rewrite Hcs, Hrs, Hfs. Qed.
End Fetch.

Lemma set_spread_from_In (seen l : list str) (x : str) :
  In x (set_spread_from seen l) <-> In x l /\ ~ In x seen.
Proof.
  revert seen. induction l as [|y l IH]; intros seen; simpl.
  - tauto.
  - destruct (decide (y ∈ seen)) as [Hy|Hy]; rewrite list_elem_of_In in Hy.
    + rewrite IH. split.
      * intros [? ?]; auto.
      * intros [[->|?] ?]; [contradiction | auto].
    + simpl. rewrite IH. simpl. split.
      * intros [->|[? ?]]; [auto | split; auto].
      * intros [[->|?] ?]; [auto|].
        destruct (decide (y = x)) as [->|Hne]; [auto|].
        right. split; [auto|]. intros [?|?]; auto.
Qed.

Lemma set_spread_from_NoDup (seen l : list str) : NoDup (set_spread_from seen l).
Proof.
  revert seen. induction l as [|y l IH]; intros seen; simpl.
  - constructor.
  - destruct (decide (y ∈ seen)); [apply IH|].
    constructor; [|apply IH].
    rewrite list_elem_of_In, set_spread_from_In. simpl. tauto.
Qed.

Lemma filter_truthy_In (l : list (option str)) (x : str) :
  In x (filter_truthy l) <-> x <> [] /\ In (Some x) l.
Proof.
  induction l as [|o l IH]; simpl; [tauto|].
  destruct o as [[|c s]|]; simpl; rewrite IH.
  - split; [intros [? ?]; auto|]. intros [Hx [Heq|?]]; [|auto].
    inversion Heq; subst; contradiction.
  - split.
    + intros [<-|[? ?]]; [split; [discriminate|auto] | auto].
    + intros [Hx [Heq|?]]; [inversion Heq; auto | auto].
  - split; [intros [? ?]; auto|]. intros [Hx [Heq|?]]; [discriminate | auto].
Qed.

Lemma reviewers_of_In (st : string) (reviews : list Review.t) (l : str) :
  In l (set_spread
          (filter_truthy
             (List.map (fun r => user_login (Review.user r))
                (List.filter (fun r => bool_decide (Review.state r = lit st))
                   reviews)))) <->
  reviewed_with st reviews l.
Proof.
  unfold set_spread, reviewed_with.
  rewrite set_spread_from_In, filter_truthy_In, in_map_iff. split.
  - intros [[Hl [r [Hr Hin]]] _]. split; [exact Hl|].
    apply filter_In in Hin as [Hin Hst]. apply bool_decide_eq_true in Hst.
    exists r. split; [exact Hin|]. split; [exact Hst|].
    destruct (Review.user r) as [[u]|]; simpl in Hr; [|discriminate].
    now inversion Hr.
  - intros [Hl [r [Hin [Hst Hu]]]]. split; [|simpl; tauto].
    split; [exact Hl|]. exists r. split; [now rewrite Hu|].
    apply filter_In. split; [exact Hin|]. now apply bool_decide_eq_true.
Qed.

Lemma attribution_eq (d : PullRequestDetails.t) :
  no_space (author d) = true ->
  attribution d =
  lit "**Shipped by** @" ++ author d ++
  match reviewers d with
  | [] => []
  | _ :: _ => bullet_sep ++ lit "**Reviewed by** " ++
              join (lit ", ") (List.map at_name (reviewers d))
  end.
Proof.
  intros Ha. unfold attribution, contributors.
  destruct (reviewers d) as [|r rs] eqn:Hr.
  - simpl. now rewrite app_nil_r.
  - cbn [length Nat.ltb Nat.leb List.map]. rewrite join_cons2.
    rewrite split_head_before_sep by exact Ha.
    change (lit "**Shipped by** @") with (lit "**Shipped by** " ++ lit "@").
    now rewrite <- !app_assoc.
Qed.

(** C5: the reviewers of the aggregated details are exactly the logins of
    the approving reviews, whose state the hosting API gives as [APPROVED],
    each login once and none absent or empty; two such reviews by one login
    and one by another give two reviewers, in whatever order the three
    come. *)
Theorem reviewers_distinct_approved (now : str) (pr : PRData.t) (octokit : Octokit)
    (cs : list Commit) (rs : list Review.t) (fs : list ChangedFile) :
  listCommits octokit (PRData.number pr) = Ok cs ->
  listReviews octokit (PRData.number pr) = Ok rs ->
  listFiles octokit (PRData.number pr) = Ok fs ->
  exists d, fetchPRDetails now pr octokit = Ok d /\
    NoDup (reviewers d) /\
    (forall l, In l (reviewers d) <-> reviewed_with "APPROVED" rs l) /\
    (forall a b, a <> [] -> b <> [] -> a <> b ->
       (rs = [approved a; approved a; approved b] \/
        rs = [approved a; approved b; approved a] \/
        rs = [approved b; approved a; approved a]) ->
       length (reviewers d) = 2).
Proof.
  intros Hcs Hrs Hfs. eexists. split; [apply (fetchPRDetails_ok _ _ _ _ _ _ Hcs Hrs Hfs)|].
  cbn [reviewers]. split; [apply set_spread_from_NoDup|].
  split; [intros l; apply reviewers_of_In|].
  intros a b Ha Hb Hab Hcase.
  destruct a as [|ca a]; [contradiction|]. destruct b as [|cb b]; [contradiction|].
  destruct Hcase as [-> | [-> | ->]]; unfold reviewers_of, approved;
    cbn [List.filter Review.state Review.user]; rewrite !bool_decide_eq_true_2 by reflexivity;
    cbn [List.map user_login login filter_truthy Review.user]; unfold set_spread;
    cbn [set_spread_from];
    repeat match goal with
           | |- context [decide (?x ∈ ?l)] => destruct (decide (x ∈ l))
           end;
    cbn [length]; try reflexivity; exfalso;
    repeat match goal with
           | H : context [_ ∈ _] |- _ => rewrite list_elem_of_In in H; simpl in H
           end;
    intuition congruence.
Qed.

(** C5 on the sample listing: two approvals by bob, one by carol and a comment by dan give the reviewers bob and carol. *)
Lemma reviewers_distinct_approved_witness :
  exists d, fetchPRDetails [] (sample_pr None) (sample_octokit 7) = Ok d /\
    reviewers d = [lit "bob"; lit "carol"].
Proof.
  destruct (reviewers_distinct_approved [] (sample_pr None) (sample_octokit 7)
              _ _ _ eq_refl eq_refl eq_refl) as [d [Hd _]].
  exists d. split; [exact Hd|].
  vm_compute in Hd. inversion Hd. reflexivity.
Defined.

(** ** The attribution line *)

(** C2, as the specification states it, fails: the line carries the markdown
    emphasis of the source, [**Shipped by** @alice], and so differs from
    [Shipped by @alice]. *)
Lemma attribution_is_emphasised :
  attribution (details_of (lit "alice") [] []) <> lit "Shipped by @alice" /\
  attribution (details_of (lit "alice") [lit "bob"; lit "carol"] []) <>
    lit "Shipped by @alice" ++ bullet_sep ++ lit "Reviewed by @bob, @carol".
Proof. split; intros H; vm_compute in H; discriminate H. Qed.

(** C2, amended: without reviewers the attribution line is
    [**Shipped by** @a]; with reviewers, and an author login without a space,
    it is [**Shipped by** @a • **Reviewed by** @r1, @r2, ...], the reviewers
    in their order and joined by a comma and a space. *)
Theorem attribution_line (d : PullRequestDetails.t) :
  (reviewers d = [] -> attribution d = lit "**Shipped by** @" ++ author d) /\
  (reviewers d <> [] -> no_space (author d) = true ->
   attribution d =
   lit "**Shipped by** @" ++ author d ++ bullet_sep ++ lit "**Reviewed by** " ++
   join (lit ", ") (List.map at_name (reviewers d))).
Proof.
  split.
  - intros Hr. unfold attribution. now rewrite Hr.
  - intros Hr Ha. rewrite attribution_eq by exact Ha.
    destruct (reviewers d); [contradiction | reflexivity].
Qed.

(** C2 for alice without reviewers, and with the reviewers bob and carol. *)
Lemma attribution_line_witness :
  attribution (details_of (lit "alice") [] []) = lit "**Shipped by** @alice" /\
  attribution (details_of (lit "alice") [lit "bob"; lit "carol"] []) =
    lit "**Shipped by** @alice" ++ bullet_sep ++ lit "**Reviewed by** @bob, @carol".
Proof.
  split.
  - apply (proj1 (attribution_line (details_of (lit "alice") [] []))). reflexivity.
  - apply (proj2 (attribution_line (details_of (lit "alice") [lit "bob"; lit "carol"] []))).
    + discriminate.
    + reflexivity.
Defined.

(** The hypothesis on the author is needed: the author part is cut at the
    first [ • ] of the contributors. *)
Example attribution_cuts_author :
  attribution (details_of (lit "a" ++ bullet_sep ++ lit "b") [lit "bob"] []) =
  lit "**Shipped by** @a" ++ bullet_sep ++ lit "**Reviewed by** @bob".
Proof. reflexivity. Qed.

(** C10: when the snapshot has no author, the aggregated details name the
    author [unknown], and the attribution line of the formatted entry starts
    with [**Shipped by** @unknown]. *)
Theorem absent_author_is_unknown (now : str) (toISOString : str -> option str)
    (pr : PRData.t) (octokit : Octokit)
    (cs : list Commit) (rs : list Review.t) (fs : list ChangedFile)
    (aiContent iso : str) :
  PRData.user pr = None ->
  listCommits octokit (PRData.number pr) = Ok cs ->
  listReviews octokit (PRData.number pr) = Ok rs ->
  listFiles octokit (PRData.number pr) = Ok fs ->
  toISOString (opt_or_else (PRData.merged_at pr) now) = Some iso ->
  exists d, fetchPRDetails now pr octokit = Ok d /\
    author d = lit "unknown" /\
    attribution d =
      lit "**Shipped by** @unknown" ++
      match reviewers d with
      | [] => []
      | _ :: _ => bullet_sep ++ lit "**Reviewed by** " ++
                  join (lit ", ") (List.map at_name (reviewers d))
      end /\
    formatEntry toISOString aiContent d =
      Ok (lit "## " ++ split_head (lit "T") iso ++ nl ++ nl ++
          trim aiContent ++ nl ++ nl ++
          attribution d ++ nl ++ nl ++ lit "---" ++ nl ++ nl).
Proof.
  intros Hu Hcs Hrs Hfs Hiso. eexists.
  split; [apply (fetchPRDetails_ok _ _ _ _ _ _ Hcs Hrs Hfs)|].
  rewrite Hu. cbn [user_login opt_or_else author].
  split; [reflexivity|]. split.
  - rewrite attribution_eq by reflexivity. cbn [author reviewers].
    change (lit "**Shipped by** @unknown") with (lit "**Shipped by** @" ++ lit "unknown").
    now rewrite <- app_assoc.
  - unfold formatEntry. cbn [mergedAt]. now rewrite Hiso.
Qed.

(** C10 on the sample pull request without a user. *)
Lemma absent_author_is_unknown_witness :
  exists d, fetchPRDetails [] (sample_pr None) (sample_octokit 7) = Ok d /\
    author d = lit "unknown" /\
    attribution d =
      lit "**Shipped by** @unknown" ++ bullet_sep ++
      lit "**Reviewed by** @bob, @carol".
Proof.
  destruct (absent_author_is_unknown [] sample_iso (sample_pr None) (sample_octokit 7)
              _ _ _ [] _ eq_refl eq_refl eq_refl eq_refl eq_refl)
    as [d [Hd [Ha [Hat _]]]].
  exists d. split; [exact Hd|]. split; [exact Ha|].
  rewrite Hat. vm_compute in Hd. inversion Hd. reflexivity.
Defined.

(** C9: the stored details hold every commit message and every changed path
    that the listings returned, in their order; the limits of 5 commits and
    10 files apply to the summaries of the prompt only. *)
Theorem details_keep_full_lists (now : str) (pr : PRData.t) (octokit : Octokit)
    (cs : list Commit) (rs : list Review.t) (fs : list ChangedFile) :
  listCommits octokit (PRData.number pr) = Ok cs ->
  listReviews octokit (PRData.number pr) = Ok rs ->
  listFiles octokit (PRData.number pr) = Ok fs ->
  exists d, fetchPRDetails now pr octokit = Ok d /\
    commits d = List.map message cs /\
    filesChanged d = List.map filename fs /\
    length (commits d) = length cs /\
    length (filesChanged d) = length fs /\
    (forall i c, nth_error cs i = Some c -> nth_error (commits d) i = Some (message c)) /\
    (forall i f, nth_error fs i = Some f -> nth_error (filesChanged d) i = Some (filename f)) /\
    commitSummary d =
      join nl (List.map (fun c => lit "- " ++ split_head nl c)
                 (firstn 5 (List.map message cs))) /\
    filesSummary d = join (lit ", ") (firstn 10 (List.map filename fs)).
Proof.
  intros Hcs Hrs Hfs. eexists.
  split; [apply (fetchPRDetails_ok _ _ _ _ _ _ Hcs Hrs Hfs)|].
  cbn [commits filesChanged]. unfold commitSummary, filesSummary, slice_to.
  cbn [commits filesChanged].
  repeat split; try apply length_map.
  - intros i c Hi. now apply map_nth_error.
  - intros i f Hi. now apply map_nth_error.
Qed.

(** C9 on a listing of seven commits: all seven are stored, five reach the prompt. *)
Lemma details_keep_full_lists_witness :
  exists d, fetchPRDetails [] (sample_pr None) (sample_octokit 7) = Ok d /\
    commits d = seven_commits /\ length (commits d) = 7 /\
    length (Spec.split_lines (commitSummary d)) = 5.
Proof.
  destruct (details_keep_full_lists [] (sample_pr None) (sample_octokit 7)
              _ _ _ eq_refl eq_refl eq_refl)
    as [d [Hd [Hc [_ [_ [_ [_ [_ [Hs _]]]]]]]]].
  exists d. split; [exact Hd|]. rewrite Hs, Hc. repeat split.
Defined.

(** ** The configuration *)

(** C8: with the provider input [p], or [openai] when it is not set,
    [openai] resolves to the OpenAI endpoint, [openrouter] to the OpenRouter
    endpoint, a provider that starts with [http] to itself, and every other
    provider makes the resolution throw the unknown-provider error. *)
Theorem getAIConfig_endpoint (getInput : str -> bool -> result str) (k p m : str) :
  getInput (lit "api-key") true = Ok k ->
  getInput (lit "provider") false = Ok p ->
  getInput (lit "model") false = Ok m ->
  let provider := or_else p (lit "openai") in
  let config url := Ok {| Index.apiKey := k; Index.baseURL := url;
                          Index.model := or_else m (lit "gpt-4o-mini") |} in
  (provider = lit "openai" ->
   Index.getAIConfig getInput = config (lit "https://api.openai.com/v1")) /\
  (provider = lit "openrouter" ->
   Index.getAIConfig getInput = config (lit "https://openrouter.ai/api/v1")) /\
  (startsWith (lit "http") provider = true ->
   Index.getAIConfig getInput = config provider) /\
  (provider <> lit "openai" -> provider <> lit "openrouter" ->
   startsWith (lit "http") provider = false ->
   Index.getAIConfig getInput =
     Throw (Error (lit "Unknown provider: " ++ provider ++
                   lit ". Use 'openai', 'openrouter', or a custom URL."))).
Proof.
  intros Hk Hp Hm provider config. unfold Index.getAIConfig.
  rewrite Hk, Hp, Hm. cbn [bindR]. fold provider.
  repeat split.
  - intros ->. reflexivity.
  - intros ->. reflexivity.
  - intros Hh. repeat case_decide.
    + rewrite H in Hh. discriminate Hh.
    + rewrite H0 in Hh. discriminate Hh.
    + now rewrite Hh.
  - intros H1 H2 Hh. repeat case_decide; try contradiction. now rewrite Hh.
Qed.

(** C8 for the providers [openai], [httpsomething-custom] and [unknown-x]. *)
Lemma getAIConfig_endpoint_witness :
  Index.getAIConfig (sample_inputs "openai") =
    Ok {| Index.apiKey := lit "key"; Index.baseURL := lit "https://api.openai.com/v1";
          Index.model := lit "gpt-4o-mini" |} /\
  Index.getAIConfig (sample_inputs "httpsomething-custom") =
    Ok {| Index.apiKey := lit "key"; Index.baseURL := lit "httpsomething-custom";
          Index.model := lit "gpt-4o-mini" |} /\
  Index.getAIConfig (sample_inputs "unknown-x") =
    Throw (Error (lit "Unknown provider: unknown-x. Use 'openai', 'openrouter', or a custom URL.")).
Proof.
  pose proof (getAIConfig_endpoint (sample_inputs "openai")
                (lit "key") (lit "openai") [] eq_refl eq_refl eq_refl)
    as [H1 _].
  pose proof (getAIConfig_endpoint (sample_inputs "httpsomething-custom")
                (lit "key") (lit "httpsomething-custom") [] eq_refl eq_refl eq_refl)
    as [_ [_ [H2 _]]].
  pose proof (getAIConfig_endpoint (sample_inputs "unknown-x")
                (lit "key") (lit "unknown-x") [] eq_refl eq_refl eq_refl)
    as [_ [_ [_ H3]]].
  split; [|split].
  - apply H1. reflexivity.
  - apply H2. reflexivity.
  - apply H3; [discriminate | discriminate | reflexivity].
Defined.

(** ** The prompt *)

Lemma split_lines_line (x s : str) :
  no_lf x = true -> split_lines (x ++ LF :: s) = x :: split_lines s.
Proof.
  induction x as [|c x IH]; intros Hx.
  - reflexivity.
  - simpl in Hx. apply andb_prop in Hx as [Hc Hx].
    apply negb_true_iff in Hc.
    change ((c :: x) ++ LF :: s) with (c :: (x ++ LF :: s)).
    cbn [split_lines]. now rewrite Hc, IH.
Qed.

Lemma split_lines_last (x : str) : no_lf x = true -> split_lines x = [x].
Proof.
  induction x as [|c x IH]; intros Hx.
  - reflexivity.
  - simpl in Hx. apply andb_prop in Hx as [Hc Hx].
    apply negb_true_iff in Hc. cbn [split_lines]. now rewrite Hc, IH.
Qed.

Lemma split_lines_join (ls : list str) :
  ls <> [] -> forallb no_lf ls = true -> split_lines (join nl ls) = ls.
Proof.
  induction ls as [|x ls IH]; intros Hne Hall; [contradiction|].
  simpl in Hall. apply andb_prop in Hall as [Hx Hall].
  destruct ls as [|y ls].
  - now apply split_lines_last.
  - rewrite join_cons2. change (nl ++ join nl (y :: ls)) with (LF :: join nl (y :: ls)).
    rewrite split_lines_line by exact Hx. now rewrite IH.
Qed.

Lemma first_line_no_lf (c : str) : no_lf (first_line c) = true.
Proof.
  unfold first_line. induction c as [|a c IH]; [reflexivity|].
  cbn [split_head startsWith nl]. rewrite andb_true_r.
  destruct (LF =? a)%N eqn:Ha; [reflexivity|].
  cbn [no_lf forallb]. fold (no_lf (split_head nl c)).
  now rewrite N.eqb_sym, Ha, IH.
Qed.

Lemma summary_lines_no_lf (cs : list str) :
  forallb no_lf (List.map summary_line cs) = true.
Proof.
  induction cs as [|c cs IH]; [reflexivity|].
  cbn [List.map forallb]. rewrite IH, andb_true_r.
  pose proof (first_line_no_lf c) as Hc.
  unfold summary_line, no_lf in *. rewrite forallb_app, Hc. reflexivity.
Qed.

(** C3, as the specification states it, fails: a summary line is not the
    first line of its commit message but that line behind the list marker
    [- ]. *)
Lemma summary_lines_carry_marker :
  length (commits (details_of (lit "alice") [] seven_commits)) = 7 /\
  split_lines (commitSummary (details_of (lit "alice") [] seven_commits)) <>
  List.map first_line (firstn 5 seven_commits).
Proof. split; [reflexivity|]. intros H. vm_compute in H. discriminate H. Qed.

(** C3, amended: the prompt is the fixed text with the title; the body, or
    [No description provided.] when the body is empty; the summary of the
    first 5 commits, one line per commit, each the list marker [- ] followed
    by the first line of the message; the first 10 paths joined by a comma
    and a space; and the labels joined the same way, or [none] when that
    text is empty, as it is for no label. With 7 commits the summary has
    exactly 5 lines. *)
Theorem buildPrompt_contents (d : PullRequestDetails.t) :
  buildPrompt d =
    prompt_template
      (title d)
      (body_text d)
      (join nl (List.map summary_line (firstn 5 (commits d))))
      (join (lit ", ") (firstn 10 (filesChanged d)))
      (labels_text d) /\
  (body d = [] -> body_text d = lit "No description provided.") /\
  (body d <> [] -> body_text d = body d) /\
  (labels d = [] -> labels_text d = lit "none") /\
  (join (lit ", ") (labels d) <> [] -> labels_text d = join (lit ", ") (labels d)) /\
  (commits d <> [] ->
   split_lines (commitSummary d) = List.map summary_line (firstn 5 (commits d)) /\
   length (split_lines (commitSummary d)) = Nat.min 5 (length (commits d))) /\
  (length (commits d) = 7 -> length (split_lines (commitSummary d)) = 5).
Proof.
  assert (Hlines : commits d <> [] ->
            split_lines (commitSummary d) = List.map summary_line (firstn 5 (commits d))).
  { intros Hc. unfold commitSummary, slice_to.
    apply (split_lines_join (List.map summary_line (firstn 5 (commits d)))).
    - destruct (commits d); [contradiction | discriminate].
    - apply summary_lines_no_lf. }
  repeat apply conj.
  - reflexivity.
  - unfold body_text. now intros ->.
  - unfold body_text. destruct (body d); [contradiction | reflexivity].
  - unfold labels_text. now intros ->.
  - unfold labels_text. destruct (join _ _); [contradiction | reflexivity].
  - intros Hc. rewrite (Hlines Hc). split; [reflexivity|].
    now rewrite length_map, length_firstn.
  - intros H7. rewrite Hlines.
    + now rewrite length_map, length_firstn, H7.
    + intros Hc. now rewrite Hc in H7.
Qed.

(** One label with an empty name joins to the empty text and so reads
    [none] as well. *)
Example labels_text_empty_name :
  labels_text {| title := []; body := []; author := []; reviewers := [];
                 commits := []; filesChanged := []; labels := [[]];
                 mergedAt := [] |} = lit "none".
Proof. reflexivity. Qed.

(** C3 for seven commits: five summary lines, the first cut at its line feed. *)
Lemma buildPrompt_contents_witness :
  split_lines (commitSummary (details_of (lit "alice") [] seven_commits)) =
    [lit "- one"; lit "- two"; lit "- three"; lit "- four"; lit "- five"] /\
  length (split_lines (commitSummary (details_of (lit "alice") [] seven_commits))) = 5.
Proof.
  pose proof (buildPrompt_contents (details_of (lit "alice") [] seven_commits))
    as [_ [_ [_ [_ [_ [Hl H7]]]]]].
  split.
  - rewrite (proj1 (Hl ltac:(discriminate))). reflexivity.
  - apply H7. reflexivity.
Defined.

(** ** The header pattern *)

Section Matcher.
Context {X : Type}.
Implicit Types (k : nat -> str -> option X) (p : N -> bool).

Lemma star_loop_S (m : nat -> str -> (nat -> str -> option X) -> option X)
    k n i s :
  star_loop m k (S n) i s =
  match m i s (fun j s1 => if (length s1 <? length s)%nat
                           then star_loop m k n j s1 else None) with
  | Some x => Some x
  | None => k i s
  end.
Proof. reflexivity. Qed.

Lemma rmatch_Chr_cons p k i c s :
  rmatch (Chr p) i (c :: s) k = if p c then k (S i) s else None.
Proof. reflexivity. Qed.

Lemma rmatch_Bos_0 k s : rmatch Bos 0 s k = k 0%nat s.
Proof. reflexivity. Qed.

Lemma rmatch_Bos_S k i s : rmatch Bos (S i) s k = None.
Proof. reflexivity. Qed.

Lemma rmatch_Chr_nil p k i : rmatch (Chr p) i [] k = None.
Proof. reflexivity. Qed.

Lemma rmatch_Seq (a b : regex) k i s :
  rmatch (Seq a b) i s k = rmatch a i s (fun j s1 => rmatch b j s1 k).
Proof. reflexivity. Qed.

Lemma rmatch_Alt (a b : regex) k i s :
  rmatch (Alt a b) i s k =
  match rmatch a i s k with Some x => Some x | None => rmatch b i s k end.
Proof. reflexivity. Qed.

Lemma rmatch_Star (a : regex) k i s :
  rmatch (Star a) i s k = star_loop (rmatch a) k (length s) i s.
Proof. reflexivity. Qed.

(** The loop of a class takes the whole run [xs] when it stops behind it
    and the continuation accepts there. *)
Lemma star_chr_run p k xs s' v :
  forallb p xs = true -> stops p s' = true ->
  forall n i, (length (xs ++ s') <= n)%nat ->
  k (i + length xs)%nat s' = Some v ->
  star_loop (rmatch (Chr p)) k n i (xs ++ s') = Some v.
Proof.
  intros Hxs Hstop. induction xs as [|c xs IH]; intros n i Hn Hk.
  - rewrite Nat.add_0_r in Hk. cbn [app]. destruct n as [|n]; [exact Hk|].
    rewrite star_loop_S. destruct s' as [|c t].
    + now rewrite rmatch_Chr_nil.
    + rewrite rmatch_Chr_cons. cbn [stops] in Hstop.
      apply negb_true_iff in Hstop. now rewrite Hstop.
  - cbn [forallb] in Hxs. apply andb_prop in Hxs as [Hc Hxs].
    destruct n as [|n]; [cbn [app length] in Hn; lia|].
    rewrite star_loop_S. change ((c :: xs) ++ s') with (c :: (xs ++ s')).
    rewrite rmatch_Chr_cons, Hc.
    assert (Hlt : (length (xs ++ s') <? length (c :: xs ++ s'))%nat = true)
      by (apply Nat.ltb_lt; cbn [length]; lia).
    rewrite Hlt, (IH Hxs n (S i)); [reflexivity | cbn [app length] in Hn; lia |].
    cbn [length] in Hk. now rewrite Nat.add_succ_r in Hk.
Qed.

Lemma plus_chr_run p k xs s' v i :
  xs <> [] -> forallb p xs = true -> stops p s' = true ->
  k (i + length xs)%nat s' = Some v ->
  rmatch (Plus (Chr p)) i (xs ++ s') k = Some v.
Proof.
  intros Hne Hxs Hstop Hk. destruct xs as [|c xs]; [contradiction|].
  cbn [forallb] in Hxs. apply andb_prop in Hxs as [Hc Hxs].
  unfold Plus. change ((c :: xs) ++ s') with (c :: (xs ++ s')).
  rewrite rmatch_Seq, rmatch_Chr_cons, Hc, rmatch_Star. apply star_chr_run; auto.
  cbn [length] in Hk. now rewrite Nat.add_succ_r in Hk.
Qed.

(** The loop of a class fails when the continuation refuses every point
    it can stop at. *)
Lemma star_chr_none p k :
  forall n i s,
  (forall pre t j, s = pre ++ t -> forallb p pre = true -> k j t = None) ->
  star_loop (rmatch (Chr p)) k n i s = None.
Proof.
  induction n as [|n IH]; intros i s Hk.
  - cbn [star_loop]. now apply (Hk [] s i).
  - rewrite star_loop_S.
    assert (Hhere : k i s = None) by now apply (Hk [] s i).
    destruct s as [|c s]; [now rewrite rmatch_Chr_nil|].
    rewrite rmatch_Chr_cons.
    destruct (p c) eqn:Hc; [|exact Hhere].
    destruct (length s <? length (c :: s))%nat; [|exact Hhere].
    rewrite IH; [exact Hhere|].
    intros pre t j -> Hpre. apply (Hk (c :: pre) t j); [reflexivity|].
    cbn [forallb]. now rewrite Hc.
Qed.
End Matcher.

Lemma gap_lf (m : nat) : forallb (N.eqb 10) (gap m) = true.
Proof. unfold gap. induction (S m) as [|n IH]; [reflexivity | exact IH]. Qed.

Lemma length_gap (m : nat) : length (gap m) = S m.
Proof. apply repeat_length. Qed.

Lemma header_re_eq :
  header_re =
  Seq Bos (Seq (chr 35) (Seq (chr 32) (Seq (Plus dot) (Seq (Plus (chr 10))
    (Star body_re))))).
Proof. reflexivity. Qed.

Section HeaderRuns.
Context {X : Type}.
Implicit Types (k : nat -> str -> option X).

(** One line below the heading, with the line feeds behind it. *)
Lemma line_run (first : N -> bool) k i c l m s' v :
  first c = true -> l <> [] -> plain l = true ->
  stops (N.eqb 10) s' = true ->
  k (i + length (c :: l ++ gap m))%nat s' = Some v ->
  rmatch (line_re first) i (c :: l ++ gap m ++ s') k = Some v.
Proof.
  intros Hc Hne Hl Hstop Hk. unfold line_re.
  rewrite rmatch_Seq, rmatch_Chr_cons, Hc, rmatch_Seq.
  unfold dot. apply plus_chr_run; [exact Hne | exact Hl | reflexivity |].
  unfold chr. apply plus_chr_run; [discriminate | apply gap_lf | exact Hstop |].
  rewrite <- Hk. f_equal. cbn [length]. rewrite length_app. lia.
Qed.

Lemma body_run k i l m s' v :
  block_line l = true -> stops (N.eqb 10) s' = true ->
  k (i + length (l ++ gap m))%nat s' = Some v ->
  rmatch body_re i (l ++ gap m ++ s') k = Some v.
Proof.
  intros Hl Hstop Hk. destruct l as [|c [|c' l]]; try discriminate Hl.
  cbn [block_line] in Hl. apply andb_prop in Hl as [Hc Hl].
  cbn [plain forallb] in Hl. apply andb_prop in Hl as [_ Hl].
  change ((c :: c' :: l) ++ gap m ++ s') with (c :: (c' :: l) ++ gap m ++ s').
  unfold body_re. rewrite rmatch_Alt.
  destruct (N.eqb 62 c) eqn:H62.
  - rewrite (line_run (N.eqb 62) k i c (c' :: l) m s' v); try discriminate; auto.
  - unfold line_re at 1. rewrite rmatch_Seq, rmatch_Chr_cons, H62.
    apply line_run; try discriminate; auto.
Qed.

Lemma body_stop k i rest :
  at_heading rest = true -> rmatch body_re i rest k = None.
Proof.
  intros Hr. unfold body_re, line_re. rewrite rmatch_Alt, !rmatch_Seq.
  destruct rest as [|c t]; [now rewrite !rmatch_Chr_nil|].
  cbn [at_heading] in Hr. apply N.eqb_eq in Hr. subst c.
  rewrite !rmatch_Chr_cons. reflexivity.
Qed.

Lemma stops_lines p rest :
  forallb (fun ln => block_line (fst ln)) p = true -> at_heading rest = true ->
  stops (N.eqb 10) (block_lines p ++ rest) = true.
Proof.
  intros Hp Hr. destruct p as [|[l m] p].
  - cbn [block_lines List.map concat app].
    destruct rest as [|c t]; [reflexivity|].
    cbn [at_heading] in Hr. apply N.eqb_eq in Hr. now subst c.
  - cbn [forallb fst] in Hp. apply andb_prop in Hp as [Hl _].
    destruct l as [|c [|c' l]]; try discriminate Hl.
    cbn [block_line plain forallb] in Hl.
    apply andb_prop in Hl as [_ Hl]. apply andb_prop in Hl as [Hc _].
    cbn [block_lines List.map concat fst app stops].
    unfold is_line_terminator in Hc. destruct (N.eqb 10 c) eqn:H10; [|reflexivity].
    apply N.eqb_eq in H10. now subst c.
Qed.

(** The loop of the pattern takes all the lines of the block when a
    heading, or nothing, follows them. *)
Lemma star_lines k rest v p :
  forallb (fun ln => block_line (fst ln)) p = true -> at_heading rest = true ->
  forall n i, (length (block_lines p ++ rest) <= n)%nat ->
  k (i + length (block_lines p))%nat rest = Some v ->
  star_loop (rmatch body_re) k n i (block_lines p ++ rest) = Some v.
Proof.
  intros Hp Hr. induction p as [|[l m] p IH]; intros n i Hn Hk.
  - cbn [block_lines List.map concat app length] in *.
    rewrite Nat.add_0_r in Hk. destruct n as [|n]; [exact Hk|].
    now rewrite star_loop_S, body_stop.
  - cbn [forallb fst] in Hp. apply andb_prop in Hp as [Hl Hp].
    change (block_lines ((l, m) :: p)) with ((l ++ gap m) ++ block_lines p) in *.
    rewrite <- !app_assoc in *. rewrite !length_app in Hn, Hk. rewrite length_gap in Hn.
    destruct n as [|n]; [lia|].
    rewrite star_loop_S.
    erewrite body_run; [reflexivity | exact Hl | now apply stops_lines |].
    assert (Hlt : (length (block_lines p ++ rest) <?
                   length (l ++ gap m ++ block_lines p ++ rest))%nat = true).
    { apply Nat.ltb_lt. rewrite !(length_app l), !(length_app (gap m)), length_gap. lia. }
    rewrite Hlt. apply IH; [exact Hp | rewrite length_app in *; lia |].
    rewrite <- Hk. f_equal. rewrite length_app. lia.
Qed.
End HeaderRuns.

(** On a document made of a header block and a rest that starts with a
    heading, the pattern matches the block. *)
Lemma header_re_block (title rest : str) (n : nat) (p : list (str * nat)) :
  title <> [] -> plain title = true ->
  forallb (fun ln => block_line (fst ln)) p = true -> at_heading rest = true ->
  rmatch header_re 0 (header_block title n p ++ rest) (fun e _ => Some e) =
  Some (length (header_block title n p)).
Proof.
  intros Hne Ht Hp Hr. rewrite header_re_eq. unfold header_block.
  rewrite <- !app_assoc.
  change (lit "# " ++ title ++ gap n ++ block_lines p ++ rest)
    with (35%N :: 32%N :: (title ++ gap n ++ block_lines p ++ rest)).
  rewrite rmatch_Seq, rmatch_Bos_0.
  unfold chr at 1. rewrite rmatch_Seq, rmatch_Chr_cons. cbn [N.eqb Pos.eqb].
  unfold chr at 1. rewrite rmatch_Seq, rmatch_Chr_cons. cbn [N.eqb Pos.eqb].
  rewrite rmatch_Seq. unfold dot.
  apply plus_chr_run; [exact Hne | exact Ht | reflexivity |].
  rewrite rmatch_Seq. unfold chr.
  apply plus_chr_run; [discriminate | apply gap_lf | now apply stops_lines |].
  rewrite rmatch_Star.
  apply star_lines; [exact Hp | exact Hr | lia |].
  f_equal. change (lit "# " ++ title ++ gap n ++ block_lines p)
    with (35%N :: 32%N :: (title ++ gap n ++ block_lines p)).
  cbn [length]. rewrite !length_app. lia.
Qed.

Lemma match0_block (title rest : str) (n : nat) (p : list (str * nat)) :
  title <> [] -> plain title = true ->
  forallb (fun ln => block_line (fst ln)) p = true -> at_heading rest = true ->
  match0 header_re (header_block title n p ++ rest) = Some (header_block title n p).
Proof.
  intros Hne Ht Hp Hr. unfold match0.
  assert (He : exec_from header_re 0 (header_block title n p ++ rest) =
               Some (0%nat, length (header_block title n p))).
  { destruct (header_block title n p ++ rest) eqn:Hdoc;
      cbn [exec_from]; rewrite <- ?Hdoc, header_re_block by assumption; reflexivity. }
  rewrite He. unfold substring. rewrite Nat.sub_0_r, skipn_O.
  now rewrite firstn_app, Nat.sub_diag, firstn_all, app_nil_r.
Qed.

Lemma newContent_block (entry title rest : str) (n : nat) (p : list (str * nat)) :
  title <> [] -> plain title = true ->
  forallb (fun ln => block_line (fst ln)) p = true -> at_heading rest = true ->
  newContent entry (header_block title n p ++ rest) =
  header_block title n p ++ entry ++ rest.
Proof.
  intros Hne Ht Hp Hr. unfold newContent.
  rewrite match0_block by assumption. unfold slice_from.
  now rewrite skipn_app, Nat.sub_diag, skipn_all.
Qed.

(** The anchor lets the pattern match at index 0 only. *)
Lemma exec_from_later (s : str) (i : nat) : exec_from header_re (S i) s = None.
Proof.
  revert i. induction s as [|c s IH]; intros i; cbn [exec_from];
    rewrite header_re_eq, rmatch_Seq, rmatch_Bos_S; [reflexivity | apply IH].
Qed.

Lemma plain_suffix_no_lf (pre t s : str) :
  s = pre ++ t -> plain pre = true ->
  startsWith nl (drop_while (fun x => negb (is_line_terminator x)) s) = false ->
  startsWith nl t = false.
Proof.
  intros -> Hpre. induction pre as [|a pre IH]; cbn [app].
  - destruct t as [|c t]; [reflexivity|]. cbn [drop_while startsWith nl].
    destruct (LF =? c)%N eqn:Hc; [|reflexivity].
    apply N.eqb_eq in Hc. subst c. cbn. intros H; exact H.
  - cbn [plain forallb] in Hpre. apply andb_prop in Hpre as [Ha Hpre].
    cbn [drop_while]. rewrite Ha. exact (IH Hpre).
Qed.

(** A document that does not start with a heading line is not matched. *)
Lemma match0_none (doc : str) : has_h1 doc = false -> match0 header_re doc = None.
Proof.
  intros Hh. unfold match0.
  assert (H0 : rmatch header_re 0 doc (fun e _ => Some e) = None).
  { rewrite header_re_eq, rmatch_Seq, rmatch_Bos_0.
    rewrite rmatch_Seq. unfold chr at 1.
    destruct doc as [|c1 doc]; [apply rmatch_Chr_nil|]. rewrite rmatch_Chr_cons.
    destruct (35 =? c1)%N eqn:H1; [|reflexivity].
    rewrite rmatch_Seq. unfold chr at 1.
    destruct doc as [|c2 doc]; [apply rmatch_Chr_nil|]. rewrite rmatch_Chr_cons.
    destruct (32 =? c2)%N eqn:H2; [|reflexivity].
    rewrite rmatch_Seq. unfold Plus at 1. rewrite rmatch_Seq. unfold dot at 1.
    destruct doc as [|c doc]; [apply rmatch_Chr_nil|]. rewrite rmatch_Chr_cons.
    cbn [has_h1] in Hh. rewrite H1, H2 in Hh. cbn [andb] in Hh.
    destruct (negb (is_line_terminator c)) eqn:Hc; [|reflexivity].
    cbn [andb] in Hh. rewrite rmatch_Star. unfold dot.
    apply star_chr_none. intros pre t j Hs Hpre.
    pose proof (plain_suffix_no_lf pre t doc Hs Hpre Hh) as Ht.
    rewrite rmatch_Seq. unfold Plus, chr. rewrite rmatch_Seq.
    destruct t as [|a t]; [apply rmatch_Chr_nil|]. rewrite rmatch_Chr_cons.
    cbn [startsWith nl] in Ht. rewrite andb_true_r in Ht.
    change LF with 10%N in Ht. now rewrite Ht. }
  destruct doc as [|c doc]; cbn [exec_from]; rewrite H0; [reflexivity|].
  now rewrite exec_from_later.
Qed.

(** ** Blank documents *)

Lemma drop_while_all (p : N -> bool) (s : str) :
  forallb p s = true -> drop_while p s = [].
Proof.
  induction s as [|c s IH]; [reflexivity|]. cbn [forallb drop_while].
  intros H. apply andb_prop in H as [Hc Hs]. now rewrite Hc, IH.
Qed.

Lemma trim_blank (s : str) : forallb is_ws s = true -> trim s = [].
Proof.
  intros H. unfold trim, trimEnd, trimStart. now rewrite (drop_while_all is_ws s H).
Qed.

Lemma drop_while_keeps (p : N -> bool) (s : str) (c : N) :
  In c s -> p c = false -> drop_while p s <> [].
Proof.
  induction s as [|a s IH]; [contradiction|]. cbn [drop_while].
  intros [->|Hin] Hc; [now rewrite Hc|].
  destruct (p a); [now apply IH | discriminate].
Qed.

Lemma trim_not_blank (s : str) : forallb is_ws s = false -> trim s <> [].
Proof.
  intros H.
  assert (Hc : exists c, In c s /\ is_ws c = false).
  { induction s as [|a s IH]; [discriminate H|]. cbn [forallb] in H.
    destruct (is_ws a) eqn:Ha.
    - destruct (IH H) as [c [Hin Hc]]. exists c. split; [now right | exact Hc].
    - exists a. split; [now left | exact Ha]. }
  destruct Hc as [c [Hin Hc]].
  assert (H1 : In c (trimStart s)).
  { unfold trimStart. clear H. induction s as [|a s IH]; [contradiction|].
    cbn [drop_while]. destruct (is_ws a) eqn:Ha; [|exact Hin].
    destruct Hin as [->|Hin]; [congruence | now apply IH]. }
  unfold trim, trimEnd. intros Hnil.
  apply (f_equal (@rev N)) in Hnil. rewrite rev_involutive in Hnil. cbn [rev] in Hnil.
  revert Hnil. apply (drop_while_keeps is_ws _ c); [|exact Hc].
  now apply in_rev in H1.
Qed.

Lemma blank_no_h1 (s : str) : forallb is_ws s = true -> has_h1 s = false.
Proof.
  destruct s as [|c1 [|c2 [|c s]]]; try reflexivity.
  cbn [forallb has_h1]. intros H. apply andb_prop in H as [H1 _].
  destruct (35 =? c1)%N eqn:Hc; [|reflexivity].
  apply N.eqb_eq in Hc. subst c1. discriminate H1.
Qed.

(** ** The merge into the changelog *)

Lemma prependToChangelog_file (entry path doc : str) (d : disk) :
  files d !! path = Some (File doc) ->
  prependToChangelog entry path d = (Ok tt, written d path (newContent entry doc)).
Proof.
  intros Hf. unfold prependToChangelog, bind, existsSync, readFileSync, writeFileSync.
  now rewrite !Hf.
Qed.

Lemma prependToChangelog_absent (entry path : str) (d : disk) :
  files d !! path = None -> uncreatable d path = None ->
  prependToChangelog entry path d = (Ok tt, written d path (newContent entry [])).
Proof.
  intros Hf Hc. unfold prependToChangelog, bind, existsSync, ret, writeFileSync.
  now rewrite !Hf, Hc.
Qed.

Lemma prependToChangelog_uncreatable (entry path : str) (d : disk) (e : exn) :
  files d !! path = None -> uncreatable d path = Some e ->
  prependToChangelog entry path d = (Throw e, d).
Proof.
  intros Hf Hc. unfold prependToChangelog, bind, existsSync, ret, writeFileSync.
  now rewrite !Hf, Hc.
Qed.

Lemma prependToChangelog_dir (entry path : str) (d : disk) :
  files d !! path = Some Dir ->
  prependToChangelog entry path d = (Throw (SystemError (lit "EISDIR")), d).
Proof.
  intros Hf. unfold prependToChangelog, bind, existsSync, readFileSync.
  now rewrite !Hf.
Qed.

Lemma newContent_blank (entry doc : str) :
  forallb is_ws doc = true -> newContent entry doc = default_header ++ entry.
Proof.
  intros Hb. unfold newContent.
  now rewrite (match0_none doc (blank_no_h1 doc Hb)), (trim_blank doc Hb).
Qed.

(** C1, as the specification states it, fails on the changelog that the code
    itself starts: its first line is a level-1 heading, and the block of the
    specification ends in front of the separator [---] of the default
    header, but the code puts the new entry behind that separator. *)
Lemma entry_goes_behind_separator :
  first_line_is_h1 sample_doc = true /\
  spec_block sample_doc =
    lit "# Changelog" ++ nl ++ nl ++ lit "All notable changes to this project." ++ nl ++ nl /\
  newContent sample_entry sample_doc <> spec_merge sample_entry sample_doc /\
  newContent sample_entry sample_doc = default_header ++ sample_entry ++ old_entry.
Proof.
  split; [reflexivity|]. split; [reflexivity|]. split; [|reflexivity].
  intros H. vm_compute in H. discriminate H.
Qed.

(** C1, amended: let the document be a heading line [# title], whose title
    is not empty and holds no line terminator (line feed, carriage return,
    U+2028, U+2029), followed by one or more line feeds; then any number of
    lines, each of two or more characters, none of them a line terminator
    and the first not [#], and each followed by one or more line feeds; and
    then a rest that is empty or starts with [#]. The header block is all of
    the document in front of that rest, separator lines [---] and the empty
    lines between its lines included. The merge keeps the block as it is,
    puts the new entry right behind it and keeps the rest as it is; the file
    is rewritten with that text. *)
Theorem merge_after_header_block (entry title rest path : str) (n : nat)
    (p : list (str * nat)) (d : disk) :
  title <> [] -> plain title = true ->
  forallb (fun ln => block_line (fst ln)) p = true ->
  at_heading rest = true ->
  files d !! path = Some (File (header_block title n p ++ rest)) ->
  newContent entry (header_block title n p ++ rest) =
    header_block title n p ++ entry ++ rest /\
  prependToChangelog entry path d =
    (Ok tt, written d path (header_block title n p ++ entry ++ rest)).
Proof.
  intros Hne Ht Hp Hr Hf.
  pose proof (newContent_block entry title rest n p Hne Ht Hp Hr) as Hnew.
  split; [exact Hnew|].
  now rewrite (prependToChangelog_file _ _ _ _ Hf), Hnew.
Qed.

(** C1 on the changelog that the code starts: the entry goes between the default header and the old entry. *)
Lemma merge_after_header_block_witness :
  prependToChangelog sample_entry (lit "CHANGELOG.md")
    (disk_with (lit "CHANGELOG.md") sample_doc) =
  (Ok tt, written (disk_with (lit "CHANGELOG.md") sample_doc) (lit "CHANGELOG.md")
            (default_header ++ sample_entry ++ old_entry)).
Proof.
  apply (merge_after_header_block sample_entry (lit "Changelog") old_entry
           (lit "CHANGELOG.md") 1
           [(lit "All notable changes to this project.", 1%nat); (lit "---", 1%nat)]
           (disk_with (lit "CHANGELOG.md") sample_doc)).
  - discriminate.
  - reflexivity.
  - reflexivity.
  - reflexivity.
  - vm_compute. reflexivity.
Defined.

(** Outside the amended claim: a heading that no line feed ends is not
    recognised, and a line of one character or a line with a carriage return
    ends the block. *)
Example heading_without_line_feed :
  newContent sample_entry (lit "# Changelog") = sample_entry ++ lit "# Changelog".
Proof. reflexivity. Qed.

Example one_character_line_ends_block :
  newContent (lit "E") (lit "# T" ++ nl ++ lit "a" ++ nl ++ lit "bc" ++ nl) =
  lit "# T" ++ nl ++ lit "E" ++ lit "a" ++ nl ++ lit "bc" ++ nl.
Proof. reflexivity. Qed.

Example carriage_return_ends_block :
  newContent (lit "E") (lit "# T" ++ nl ++ lit "ab" ++ [13%N] ++ nl ++ lit "cd" ++ nl) =
  lit "# T" ++ nl ++ lit "E" ++ lit "ab" ++ [13%N] ++ nl ++ lit "cd" ++ nl.
Proof. reflexivity. Qed.

(** C6: for a changelog that does not exist, which is read as the empty
    text, or that holds only white space, the merged text is the default
    header, that is the title [# Changelog], the line
    [All notable changes to this project.] and the separator [---], each
    followed by an empty line, and the new entry right behind it. The merge
    writes that text; only when the file does not exist and the system
    refuses to create it does the write throw, and nothing is written. *)
Theorem merge_into_blank (entry path : str) (d : disk) :
  (forall doc, forallb is_ws doc = true ->
     newContent entry doc = default_header ++ entry) /\
  ((files d !! path = None /\ uncreatable d path = None) \/
   (exists doc, files d !! path = Some (File doc) /\ forallb is_ws doc = true) ->
   prependToChangelog entry path d =
     (Ok tt, written d path (default_header ++ entry))) /\
  (forall e, files d !! path = None -> uncreatable d path = Some e ->
     prependToChangelog entry path d = (Throw e, d)) /\
  default_header =
    lit "# Changelog" ++ nl ++ nl ++
    lit "All notable changes to this project." ++ nl ++ nl ++
    lit "---" ++ nl ++ nl.
Proof.
  split; [intros doc Hb; now apply newContent_blank|].
  split; [|split; [|reflexivity]].
  - intros [[Hf Hc] | [doc [Hf Hb]]].
    + now rewrite (prependToChangelog_absent _ _ _ Hf Hc).
    + now rewrite (prependToChangelog_file _ _ _ _ Hf), (newContent_blank _ _ Hb).
  - intros e Hf Hc. now apply prependToChangelog_uncreatable.
Qed.

(** C6 for a missing changelog, for one that holds a space and a line feed,
    and for a missing changelog in a missing directory. *)
Lemma merge_into_blank_witness :
  prependToChangelog sample_entry (lit "CHANGELOG.md") empty_disk =
    (Ok tt, written empty_disk (lit "CHANGELOG.md") (default_header ++ sample_entry)) /\
  writes (snd (prependToChangelog sample_entry (lit "CHANGELOG.md")
                 (disk_with (lit "CHANGELOG.md") (lit " " ++ nl)))) =
    [(lit "CHANGELOG.md", default_header ++ sample_entry)] /\
  prependToChangelog sample_entry (lit "docs/CHANGELOG.md")
    (disk_without_directory (lit "docs/CHANGELOG.md")) =
    (Throw (SystemError (lit "ENOENT")), disk_without_directory (lit "docs/CHANGELOG.md")).
Proof.
  split; [|split].
  - apply (proj1 (proj2 (merge_into_blank sample_entry (lit "CHANGELOG.md") empty_disk))).
    left. split; [vm_compute; reflexivity | reflexivity].
  - assert (H : exists doc,
                files (disk_with (lit "CHANGELOG.md") (lit " " ++ nl)) !! lit "CHANGELOG.md" =
                  Some (File doc) /\ forallb is_ws doc = true).
    { exists (lit " " ++ nl). split; [vm_compute; reflexivity | reflexivity]. }
    rewrite (proj1 (proj2 (merge_into_blank sample_entry (lit "CHANGELOG.md")
                             (disk_with (lit "CHANGELOG.md") (lit " " ++ nl))))
               (or_intror H)).
    reflexivity.
  - apply (proj1 (proj2 (proj2 (merge_into_blank sample_entry (lit "docs/CHANGELOG.md")
                                  (disk_without_directory (lit "docs/CHANGELOG.md")))))).
    + vm_compute. reflexivity.
    + vm_compute. reflexivity.
Defined.

(** C7: when the changelog holds more than white space and does not start
    with a heading line [# title] ended by a line feed, the merge writes the
    new entry followed by the old content as it is. *)
Theorem merge_without_header (entry doc path : str) (d : disk) :
  forallb is_ws doc = false -> has_h1 doc = false ->
  files d !! path = Some (File doc) ->
  newContent entry doc = entry ++ doc /\
  prependToChangelog entry path d = (Ok tt, written d path (entry ++ doc)).
Proof.
  intros Hb Hh Hf.
  assert (Hnew : newContent entry doc = entry ++ doc).
  { unfold newContent. rewrite (match0_none doc Hh).
    pose proof (trim_not_blank doc Hb) as Ht.
    destruct (trim doc); [contradiction | reflexivity]. }
  split; [exact Hnew|].
  now rewrite (prependToChangelog_file _ _ _ _ Hf), Hnew.
Qed.

(** C7 for a changelog that starts with an entry. *)
Lemma merge_without_header_witness :
  newContent sample_entry old_entry = sample_entry ++ old_entry /\
  prependToChangelog sample_entry (lit "CHANGELOG.md")
    (disk_with (lit "CHANGELOG.md") old_entry) =
  (Ok tt, written (disk_with (lit "CHANGELOG.md") old_entry) (lit "CHANGELOG.md")
            (sample_entry ++ old_entry)).
Proof.
  apply (merge_without_header sample_entry old_entry (lit "CHANGELOG.md")
           (disk_with (lit "CHANGELOG.md") old_entry)).
  - reflexivity.
  - reflexivity.
  - vm_compute. reflexivity.
Defined.

(** ** The pipeline *)

Section Pipeline.
Variables (now : str) (toISOString : str -> option str).
Variable create : Index.AIConfig -> str -> result (list Choice).
Variables (options : GenerateEntryOptions) (d : disk).

Lemma generateEntry_run :
  generateEntry now toISOString create options d =
  match fetchPRDetails now (pr options) (octokit options) with
  | Throw e => (Throw e, d)
  | Ok details =>
      match generateWithAI toISOString create details (aiConfig options) with
      | Throw e => (Throw e, d)
      | Ok entry =>
          match files d !! changelogPath options with
          | Some Dir => (Throw (SystemError (lit "EISDIR")), d)
          | Some (File doc) =>
              (Ok entry, written d (changelogPath options) (newContent entry doc))
          | None =>
              match uncreatable d (changelogPath options) with
              | Some e => (Throw e, d)
              | None =>
                  (Ok entry, written d (changelogPath options) (newContent entry []))
              end
          end
      end
  end.
Proof.
  unfold generateEntry, bind, lift, ret.
  destruct (fetchPRDetails now (pr options) (octokit options)) as [details|e];
    [|reflexivity].
  destruct (generateWithAI toISOString create details (aiConfig options))
    as [entry|e]; [|reflexivity].
  destruct (files d !! changelogPath options) as [[doc|]|] eqn:Hf.
  - now rewrite (prependToChangelog_file _ _ _ _ Hf).
  - now rewrite (prependToChangelog_dir _ _ _ Hf).
  - destruct (uncreatable d (changelogPath options)) as [e|] eqn:Hc.
    + now rewrite (prependToChangelog_uncreatable _ _ _ _ Hf Hc).
    + now rewrite (prependToChangelog_absent _ _ _ Hf Hc).
Qed.

Lemma fetchPRDetails_first_error (e : exn) :
  let n := PRData.number (pr options) in
  listCommits (octokit options) n = Throw e \/
  (exists cs, listCommits (octokit options) n = Ok cs /\
     (listReviews (octokit options) n = Throw e \/
      exists rs, listReviews (octokit options) n = Ok rs /\
                 listFiles (octokit options) n = Throw e)) ->
  fetchPRDetails now (pr options) (octokit options) = Throw e.
Proof.
  intros n H. unfold fetchPRDetails. fold n.
  destruct H as [-> | [cs [-> [-> | [rs [-> ->]]]]]]; reflexivity.
Qed.
End Pipeline.

(** C4: a run of the entry pipeline that throws leaves the disk as it was,
    and a run that returns has rewritten the changelog exactly once. The
    first failing listing of the aggregation, a failing completion call and
    an empty or missing completion text each make the run throw that error;
    when aggregation, completion and formatting succeed, the run returns
    the entry and the one write is the merge of the entry into the old
    content, unless the changelog path is a directory or the system refuses
    to create the file, where the run throws that error. *)
Theorem generateEntry_all_or_nothing (now : str) (toISOString : str -> option str)
    (create : Index.AIConfig -> str -> result (list Choice))
    (options : GenerateEntryOptions) (d : disk) :
  let r := fst (generateEntry now toISOString create options d) in
  let d' := snd (generateEntry now toISOString create options d) in
  let n := PRData.number (pr options) in
  let path := changelogPath options in
  let fetched := fetchPRDetails now (pr options) (octokit options) in
  (forall e, r = Throw e -> d' = d) /\
  (forall entry, r = Ok entry ->
     exists doc, d' = written d path (newContent entry doc) /\
                 writes d' = writes d ++ [(path, newContent entry doc)]) /\
  (forall e,
     listCommits (octokit options) n = Throw e \/
     (exists cs, listCommits (octokit options) n = Ok cs /\
        (listReviews (octokit options) n = Throw e \/
         exists rs, listReviews (octokit options) n = Ok rs /\
                    listFiles (octokit options) n = Throw e)) ->
     r = Throw e /\ d' = d) /\
  (forall details e, fetched = Ok details ->
     create (aiConfig options) (buildPrompt details) = Throw e ->
     r = Throw e /\ d' = d) /\
  (forall details choices, fetched = Ok details ->
     create (aiConfig options) (buildPrompt details) = Ok choices ->
     first_content choices = None \/ first_content choices = Some [] ->
     r = Throw (Error (lit "No response from OpenAI")) /\ d' = d) /\
  (forall details choices c content iso, fetched = Ok details ->
     create (aiConfig options) (buildPrompt details) = Ok choices ->
     first_content choices = Some (c :: content) ->
     toISOString (mergedAt details) = Some iso ->
     exists entry,
       formatEntry toISOString (c :: content) details = Ok entry /\
       match files d !! path with
       | Some (File doc) =>
           r = Ok entry /\ d' = written d path (newContent entry doc)
       | Some Dir => r = Throw (SystemError (lit "EISDIR")) /\ d' = d
       | None =>
           match uncreatable d path with
           | None => r = Ok entry /\ d' = written d path (newContent entry [])
           | Some e => r = Throw e /\ d' = d
           end
       end).
Proof.
  intros r d' n path fetched. subst r d'.
  rewrite generateEntry_run. fold fetched path.
  split; [|split; [|split; [|split; [|split]]]].
  - intros e. destruct fetched as [details|e0]; [|reflexivity].
    destruct (generateWithAI _ _ _ _) as [entry|e1]; [|reflexivity].
    destruct (files d !! path) as [[doc|]|]; [discriminate | reflexivity |].
    destruct (uncreatable d path); [reflexivity | discriminate].
  - intros entry. destruct fetched as [details|e0]; [|discriminate].
    destruct (generateWithAI _ _ _ _) as [entry'|e1]; [|discriminate].
    destruct (files d !! path) as [[doc|]|]; [|discriminate|].
    + cbn [fst snd]. intros H. injection H as ->. eexists. split; reflexivity.
    + destruct (uncreatable d path); [discriminate|].
      cbn [fst snd]. intros H. injection H as ->. eexists. split; reflexivity.
  - intros e H. subst fetched.
    now rewrite (fetchPRDetails_first_error now options e H).
  - intros details e -> Hc. unfold generateWithAI. now rewrite Hc.
  - intros details choices -> Hc Hnone. unfold generateWithAI. rewrite Hc.
    cbn [bindR]. destruct Hnone as [-> | ->]; split; reflexivity.
  - intros details choices c content iso -> Hc Hsome Hiso.
    unfold generateWithAI. rewrite Hc. cbn [bindR]. rewrite Hsome.
    unfold formatEntry. rewrite Hiso. cbn [bindR].
    eexists. split; [reflexivity|].
    destruct (files d !! path) as [[doc|]|]; [now split | now split |].
    destruct (uncreatable d path); now split.
Qed.

(** C4 on the sample run: with a completion text the changelog is written once, without one nothing is written. *)
Lemma generateEntry_all_or_nothing_witness :
  (exists entry,
     generateEntry [] sample_iso (sample_create (Some (lit "New."))) (sample_options 7)
       empty_disk =
     (Ok entry, written empty_disk (lit "CHANGELOG.md") (default_header ++ entry))) /\
  generateEntry [] sample_iso (sample_create None) (sample_options 7) empty_disk =
    (Throw (Error (lit "No response from OpenAI")), empty_disk).
Proof.
  pose proof (generateEntry_all_or_nothing [] sample_iso
                (sample_create (Some (lit "New."))) (sample_options 7) empty_disk)
    as [_ [_ [_ [_ [_ Hok]]]]].
  pose proof (generateEntry_all_or_nothing [] sample_iso
                (sample_create None) (sample_options 7) empty_disk)
    as [_ [_ [_ [_ [Hempty _]]]]].
  split.
  - destruct (Hok _ _ _ _ _ eq_refl eq_refl eq_refl eq_refl) as [entry [Hentry Hcase]].
    assert (Hnone : files empty_disk !! changelogPath (sample_options 7) = None)
      by (vm_compute; reflexivity).
    rewrite Hnone in Hcase. cbn [uncreatable empty_disk] in Hcase.
    destruct Hcase as [Hr Hd].
    exists entry. rewrite (surjective_pairing (generateEntry _ _ _ _ _)).
    rewrite Hr, Hd. reflexivity.
  - destruct (Hempty _ _ eq_refl eq_refl (or_introl eq_refl)) as [Hr Hd].
    rewrite (surjective_pairing (generateEntry _ _ _ _ _)).
    now rewrite Hr, Hd.
Defined.

(** * Further properties of the code *)
Import Run Main RunSamples.

(** ** The matcher consumes a prefix of its input *)

Section MatcherSound.
Context {X : Type}.
Implicit Types (k : nat -> str -> option X).

Lemma star_loop_sound (m : nat -> str -> (nat -> str -> option X) -> option X) :
  (forall i s k v, m i s k = Some v ->
     exists pre t, s = pre ++ t /\ k (i + length pre)%nat t = Some v) ->
  forall k n i s v, star_loop m k n i s = Some v ->
    exists pre t, s = pre ++ t /\ k (i + length pre)%nat t = Some v.
Proof.
  intros Hm k. induction n as [|n IH]; intros i s v H.
  - exists [], s. cbn [app length]. now rewrite Nat.add_0_r.
  - rewrite star_loop_S in H.
    destruct (m i s _) as [x|] eqn:Hbody.
    + injection H as ->. apply Hm in Hbody as [pre1 [t1 [-> Hk]]].
      destruct (length t1 <? length (pre1 ++ t1))%nat; [|discriminate Hk].
      apply IH in Hk as [pre2 [t2 [-> Hk]]].
      exists (pre1 ++ pre2), t2. rewrite <- app_assoc. split; [reflexivity|].
      now rewrite length_app, Nat.add_assoc.
    + exists [], s. cbn [app length]. now rewrite Nat.add_0_r.
Qed.

Lemma rmatch_sound (r : regex) :
  forall i s k v, rmatch r i s k = Some v ->
    exists pre t, s = pre ++ t /\ k (i + length pre)%nat t = Some v.
Proof.
  induction r as [|p|a IHa b IHb|a IHa b IHb|a IHa]; intros i s k v H.
  - destruct i as [|i]; [|discriminate H]. exists [], s. now split.
  - destruct s as [|c s]; [discriminate H|]. rewrite rmatch_Chr_cons in H.
    destruct (p c); [|discriminate H].
    exists [c], s. cbn [app length]. now rewrite Nat.add_1_r.
  - rewrite rmatch_Seq in H. apply IHa in H as [pre1 [t1 [-> H]]].
    apply IHb in H as [pre2 [t2 [-> H]]].
    exists (pre1 ++ pre2), t2. rewrite <- app_assoc. split; [reflexivity|].
    now rewrite length_app, Nat.add_assoc.
  - rewrite rmatch_Alt in H. destruct (rmatch a i s k) as [x|] eqn:Ha.
    + injection H as ->. now apply IHa.
    + now apply IHb.
  - rewrite rmatch_Star in H. now apply (star_loop_sound (rmatch a) IHa) in H.
Qed.

(** A loop never fails when what follows it never fails. *)
Lemma star_loop_total (m : nat -> str -> (nat -> str -> option X) -> option X) k :
  (forall j t, exists v, k j t = Some v) ->
  forall n i s, exists v, star_loop m k n i s = Some v.
Proof.
  intros Hk n i s. destruct n as [|n]; [apply Hk|].
  rewrite star_loop_S. destruct (m i s _) as [x|]; [now exists x | apply Hk].
Qed.
End MatcherSound.

Lemma drop_while_split (p : N -> bool) (s : str) :
  exists run, forallb p run = true /\ s = run ++ drop_while p s.
Proof.
  induction s as [|c s [run [Hrun Hs]]].
  - now exists [].
  - cbn [drop_while]. destruct (p c) eqn:Hc.
    + exists (c :: run). cbn [forallb]. rewrite Hc, Hrun. split; [reflexivity|].
      cbn [app]. now rewrite <- Hs.
    + now exists [].
Qed.

(** The pattern on a document that starts with a heading line: the match
    takes that line and some more of the document. *)
Lemma header_re_h1 (doc : str) :
  has_h1 doc = true ->
  exists title more rest,
    title <> [] /\ plain title = true /\
    doc = lit "# " ++ title ++ nl ++ more ++ rest /\
    rmatch header_re 0 doc (fun e _ => Some e) =
      Some (length (lit "# " ++ title ++ nl ++ more)).
Proof.
  intros Hh. destruct doc as [|c1 [|c2 [|c s]]]; try discriminate Hh.
  cbn [has_h1] in Hh.
  apply andb_prop in Hh as [Hh Hnl]. apply andb_prop in Hh as [Hh Hc].
  apply andb_prop in Hh as [H1 H2].
  apply N.eqb_eq in H1, H2. subst c1 c2.
  destruct (drop_while_split (fun x => negb (is_line_terminator x)) s)
    as [run [Hrun Hs]].
  destruct (drop_while _ s) as [|l tail]; [discriminate Hnl|].
  cbn [startsWith nl] in Hnl. rewrite andb_true_r in Hnl.
  apply N.eqb_eq in Hnl. subst l.
  set (K := fun (e : nat) (_ : str) => Some e).
  set (K3 := fun j t => rmatch (Star body_re) j t K).
  assert (Htail : exists e, star_loop (rmatch (Chr (N.eqb 10))) K3 (length tail)
                              (S (S (S (S (length run))))) tail = Some e).
  { apply star_loop_total. intros j t. unfold K3. rewrite rmatch_Star.
    apply star_loop_total. intros j' t'. now exists j'. }
  destruct Htail as [e He].
  pose proof He as Hsound.
  apply (star_loop_sound _ (rmatch_sound (Chr (N.eqb 10)))) in Hsound
    as [pre1 [t1 [Htl Hk]]].
  unfold K3 in Hk. apply rmatch_sound in Hk as [pre2 [t2 [Ht1 Hk]]].
  unfold K in Hk. injection Hk as <-.
  exists (c :: run), (pre1 ++ pre2), t2.
  split; [discriminate|]. split; [cbn [plain forallb]; now rewrite Hc|].
  split.
  - rewrite Hs, Htl, Ht1. cbn. now rewrite <- !app_assoc.
  - rewrite header_re_eq, rmatch_Seq, rmatch_Bos_0.
    unfold chr at 1. rewrite rmatch_Seq, rmatch_Chr_cons. cbn [N.eqb Pos.eqb].
    unfold chr at 1. rewrite rmatch_Seq, rmatch_Chr_cons. cbn [N.eqb Pos.eqb].
    rewrite rmatch_Seq, Hs. unfold dot.
    change (c :: run ++ LF :: tail) with ((c :: run) ++ LF :: tail).
    apply plus_chr_run;
      [discriminate | cbn [forallb]; now rewrite Hc, Hrun | reflexivity |].
    rewrite rmatch_Seq. unfold Plus, chr. rewrite rmatch_Seq, rmatch_Chr_cons.
    change (10 =? LF)%N with true. cbn iota. rewrite rmatch_Star.
    fold K. fold K3.
    replace (S (2 + length (c :: run))) with (S (S (S (S (length run)))))
      by (cbn [length]; lia).
    rewrite He. f_equal.
    change (lit "# " ++ (c :: run) ++ nl ++ pre1 ++ pre2)
      with (35%N :: 32%N :: c :: (run ++ LF :: (pre1 ++ pre2))).
    cbn [length]. rewrite !length_app. cbn [length]. rewrite length_app. lia.
Qed.

Lemma match0_h1 (doc : str) :
  has_h1 doc = true ->
  exists title more rest,
    title <> [] /\ plain title = true /\
    doc = lit "# " ++ title ++ nl ++ more ++ rest /\
    match0 header_re doc = Some (lit "# " ++ title ++ nl ++ more).
Proof.
  intros Hh. destruct (header_re_h1 doc Hh) as [title [more [rest [Hne [Hp [Hd Hm]]]]]].
  exists title, more, rest. repeat split; try assumption.
  unfold match0.
  assert (He : exec_from header_re 0 doc =
               Some (0%nat, length (lit "# " ++ title ++ nl ++ more))).
  { destruct doc; cbn [exec_from]; now rewrite Hm. }
  rewrite He. unfold substring. rewrite Nat.sub_0_r, skipn_O, Hd.
  replace (lit "# " ++ title ++ nl ++ more ++ rest)
    with ((lit "# " ++ title ++ nl ++ more) ++ rest)
    by now rewrite <- !app_assoc.
  now rewrite firstn_app, Nat.sub_diag, firstn_all, app_nil_r.
Qed.

(** ** More on the merge *)

Lemma drop_while_run (p : N -> bool) (run : str) (c : N) (x : str) :
  forallb p run = true -> p c = false -> drop_while p (run ++ c :: x) = c :: x.
Proof.
  intros Hrun Hc. induction run as [|a run IH]; cbn [app drop_while].
  - now rewrite Hc.
  - cbn [forallb] in Hrun. apply andb_prop in Hrun as [Ha Hrun]. rewrite Ha. now apply IH.
Qed.

Lemma has_h1_intro (title x : str) :
  title <> [] -> plain title = true -> has_h1 (lit "# " ++ title ++ nl ++ x) = true.
Proof.
  intros Hne Hp. destruct title as [|c t]; [contradiction|].
  cbn [plain forallb] in Hp. apply andb_prop in Hp as [Hc Ht].
  change (lit "# " ++ (c :: t) ++ nl ++ x) with (35%N :: 32%N :: c :: (t ++ LF :: x)).
  cbn [has_h1]. rewrite Hc, (drop_while_run _ t LF x Ht eq_refl). reflexivity.
Qed.

Lemma trim_blank_iff (s : str) : trim s = [] <-> forallb is_ws s = true.
Proof.
  split; [|apply trim_blank].
  intros Ht. destruct (forallb is_ws s) eqn:Hb; [reflexivity|].
  now apply trim_not_blank in Hb.
Qed.

Lemma newContent_h1 (entry doc : str) :
  has_h1 doc = true ->
  exists title more rest,
    title <> [] /\ plain title = true /\
    doc = lit "# " ++ title ++ nl ++ more ++ rest /\
    newContent entry doc = lit "# " ++ title ++ nl ++ more ++ entry ++ rest.
Proof.
  intros Hh. destruct (match0_h1 doc Hh) as [title [more [rest [Hne [Hp [Hd Hm]]]]]].
  exists title, more, rest. repeat split; try assumption.
  unfold newContent. rewrite Hm. unfold slice_from. rewrite Hd at 1.
  replace (lit "# " ++ title ++ nl ++ more ++ rest)
    with ((lit "# " ++ title ++ nl ++ more) ++ rest)
    by now rewrite <- !app_assoc.
  rewrite skipn_app, Nat.sub_diag, skipn_all. cbn [skipn app].
  now rewrite <- !app_assoc.
Qed.

(** X1: when the changelog starts with a heading line [# title] ended by a
    line feed, whatever follows, the merge writes a document that starts
    with the same heading line: the old document with the entry put in at
    one place behind that line. *)
Theorem merge_keeps_heading_line (entry doc path : str) (d : disk) :
  has_h1 doc = true ->
  files d !! path = Some (File doc) ->
  exists title more rest,
    title <> [] /\ plain title = true /\
    doc = lit "# " ++ title ++ nl ++ more ++ rest /\
    prependToChangelog entry path d =
      (Ok tt, written d path (lit "# " ++ title ++ nl ++ more ++ entry ++ rest)).
Proof.
  intros Hh Hf.
  destruct (newContent_h1 entry doc Hh) as [title [more [rest [Hne [Hp [Hd Hn]]]]]].
  exists title, more, rest. repeat split; try assumption.
  now rewrite (prependToChangelog_file entry path doc d Hf), Hn.
Qed.

(** X1 on a document with a line of one character below the heading. *)
Lemma merge_keeps_heading_line_witness :
  exists title more rest,
    title <> [] /\ plain title = true /\
    lit "# T" ++ nl ++ lit "a" ++ nl = lit "# " ++ title ++ nl ++ more ++ rest /\
    prependToChangelog sample_entry (lit "CHANGELOG.md")
      (disk_with (lit "CHANGELOG.md") (lit "# T" ++ nl ++ lit "a" ++ nl)) =
      (Ok tt, written (disk_with (lit "CHANGELOG.md") (lit "# T" ++ nl ++ lit "a" ++ nl))
                (lit "CHANGELOG.md")
                (lit "# " ++ title ++ nl ++ more ++ sample_entry ++ rest)).
Proof.
  apply (merge_keeps_heading_line sample_entry (lit "# T" ++ nl ++ lit "a" ++ nl)
           (lit "CHANGELOG.md")
           (disk_with (lit "CHANGELOG.md") (lit "# T" ++ nl ++ lit "a" ++ nl))).
  - reflexivity.
  - vm_compute. reflexivity.
Defined.

(** X2: a merge loses nothing but white space: the new content is the old
    document with the entry put in at one place, except for a document of
    white space only, which the default header replaces. *)
Theorem merge_loses_nothing (entry doc : str) :
  exists pre post,
    newContent entry doc = pre ++ entry ++ post /\
    (pre ++ post = doc \/
     (forallb is_ws doc = true /\ pre = default_header /\ post = [])).
Proof.
  destruct (has_h1 doc) eqn:Hh.
  - destruct (newContent_h1 entry doc Hh)
      as [title [more [rest [_ [_ [Hd Hn]]]]]].
    exists (lit "# " ++ title ++ nl ++ more), rest. split.
    + rewrite Hn. now rewrite <- !app_assoc.
    + left. rewrite Hd. now rewrite <- !app_assoc.
  - unfold newContent. rewrite (match0_none doc Hh).
    destruct (trim doc) eqn:Ht.
    + exists default_header, []. split; [now rewrite app_nil_r|].
      right. split; [now apply trim_blank_iff | split; reflexivity].
    + exists [], doc. split; [reflexivity | left; reflexivity].
Qed.

(** X3: the header branch of the merge is taken exactly for the documents
    that start with [# ], a character that is no line terminator, and a
    first line that a line feed ends. *)
Theorem header_recognised_iff (doc : str) :
  (exists header, match0 header_re doc = Some header) <-> has_h1 doc = true.
Proof.
  split.
  - intros [header Hm]. destruct (has_h1 doc) eqn:Hh; [reflexivity|].
    rewrite (match0_none doc Hh) in Hm. discriminate Hm.
  - intros Hh. destruct (match0_h1 doc Hh) as [title [more [rest [_ [_ [_ Hm]]]]]].
    eexists. exact Hm.
Qed.

(** X4: two merges in a row leave the newer entry in front of the older
    one, behind the header: on a blank document behind the default header,
    and on a document with a header block behind that block. The older
    entry has to start with [#], as each formatted entry does. *)
Theorem merges_are_newest_first (older newer : str) :
  older <> [] -> at_heading older = true ->
  (forall doc, forallb is_ws doc = true ->
     newContent newer (newContent older doc) = default_header ++ newer ++ older) /\
  (forall title n p rest,
     title <> [] -> plain title = true ->
     forallb (fun ln => block_line (fst ln)) p = true -> at_heading rest = true ->
     newContent newer (newContent older (header_block title n p ++ rest)) =
     header_block title n p ++ newer ++ older ++ rest).
Proof.
  intros Hne Hh.
  assert (Hnext : forall rest, at_heading (older ++ rest) = true).
  { intros rest. destruct older; [contradiction | exact Hh]. }
  split.
  - intros doc Hb. rewrite (newContent_blank older doc Hb).
    change default_header
      with (header_block (lit "Changelog") 1
              [(lit "All notable changes to this project.", 1%nat); (lit "---", 1%nat)]).
    rewrite <- (app_nil_r older) at 1.
    rewrite newContent_block; try reflexivity; try discriminate.
    + now rewrite app_nil_r.
    + apply Hnext.
  - intros title n p rest Ht Hp Hl Hr.
    rewrite (newContent_block older title rest n p Ht Hp Hl Hr).
    now rewrite (newContent_block newer title (older ++ rest) n p Ht Hp Hl (Hnext rest)).
Qed.

(** X4 on a missing changelog and two sample entries. *)
Lemma merges_are_newest_first_witness :
  newContent sample_entry (newContent old_entry []) =
  default_header ++ sample_entry ++ old_entry.
Proof.
  apply (proj1 (merges_are_newest_first old_entry sample_entry
                  ltac:(discriminate) eq_refl)).
  reflexivity.
Defined.

(** X5: a document that starts with a heading line, or holds white space
    only, starts with a heading line after the merge: once the changelog has
    its header, every later run finds it. *)
Theorem headed_stays_headed (entry doc : str) :
  has_h1 doc = true \/ forallb is_ws doc = true ->
  has_h1 (newContent entry doc) = true.
Proof.
  intros [Hh | Hb].
  - destruct (newContent_h1 entry doc Hh)
      as [title [more [rest [Hne [Hp [_ ->]]]]]].
    now apply has_h1_intro.
  - rewrite (newContent_blank entry doc Hb).
    change (default_header ++ entry)
      with (lit "# " ++ lit "Changelog" ++ nl ++
            ((nl ++ lit "All notable changes to this project." ++ nl ++ nl ++
              lit "---" ++ nl ++ nl) ++ entry)).
    apply has_h1_intro; [discriminate | reflexivity].
Qed.

(** X5 on the sample changelog and on an empty one. *)
Lemma headed_stays_headed_witness :
  has_h1 (newContent sample_entry sample_doc) = true /\
  has_h1 (newContent sample_entry []) = true.
Proof.
  split.
  - apply (headed_stays_headed sample_entry sample_doc). left. reflexivity.
  - apply (headed_stays_headed sample_entry []). right. reflexivity.
Defined.

(** ** [trim] *)

Lemma drop_while_prefix (p : N -> bool) (a s : str) :
  forallb p a = true -> drop_while p (a ++ s) = drop_while p s.
Proof.
  induction a as [|c a IH]; [reflexivity|]. cbn [forallb app drop_while].
  intros H. apply andb_prop in H as [Hc Ha]. now rewrite Hc, IH.
Qed.

Lemma drop_while_app_stop (p : N -> bool) (l : str) (c : N) (r : str) :
  p c = false -> drop_while p (l ++ c :: r) = drop_while p l ++ c :: r.
Proof.
  intros Hc. induction l as [|a l IH]; cbn [app drop_while].
  - now rewrite Hc.
  - destruct (p a); [exact IH | reflexivity].
Qed.

Lemma drop_while_idem (p : N -> bool) (s : str) :
  drop_while p (drop_while p s) = drop_while p s.
Proof.
  induction s as [|c s IH]; [reflexivity|]. cbn [drop_while].
  destruct (p c) eqn:Hc; [exact IH|]. cbn [drop_while]. now rewrite Hc.
Qed.

Lemma drop_while_forallb (p q : N -> bool) (s : str) :
  forallb q s = true -> forallb q (drop_while p s) = true.
Proof.
  induction s as [|c s IH]; [reflexivity|]. cbn [forallb drop_while].
  intros H. destruct (p c); [|exact H].
  apply andb_prop in H as [_ H]. now apply IH.
Qed.

Lemma forallb_rev (q : N -> bool) (s : str) : forallb q (rev s) = forallb q s.
Proof.
  induction s as [|c s IH]; [reflexivity|]. cbn [rev forallb].
  rewrite forallb_app, IH. cbn [forallb]. rewrite andb_true_r. apply andb_comm.
Qed.

Lemma trim_forallb (q : N -> bool) (s : str) :
  forallb q s = true -> forallb q (trim s) = true.
Proof.
  intros H. unfold trim, trimEnd, trimStart.
  rewrite forallb_rev. apply drop_while_forallb. rewrite forallb_rev.
  now apply drop_while_forallb.
Qed.

Lemma trimEnd_keeps_head (y : str) :
  drop_while is_ws y = y -> drop_while is_ws (trimEnd y) = trimEnd y.
Proof.
  intros Hy. destruct y as [|c t]; [reflexivity|].
  cbn [drop_while] in Hy. destruct (is_ws c) eqn:Hc.
  - exfalso. pose proof (f_equal (@length N) Hy) as Hl.
    pose proof (drop_while_split is_ws t) as [run [_ Ht]].
    apply (f_equal (@length N)) in Ht. rewrite length_app in Ht.
    cbn [length] in Hl. lia.
  - unfold trimEnd. cbn [rev].
    rewrite (drop_while_app_stop is_ws (rev t) c [] Hc), rev_app_distr.
    cbn [rev app drop_while]. now rewrite Hc.
Qed.

Lemma trim_idem (s : str) : trim (trim s) = trim s.
Proof.
  unfold trim. unfold trimStart at 1.
  rewrite (trimEnd_keeps_head (trimStart s)) by apply drop_while_idem.
  unfold trimEnd. now rewrite rev_involutive, drop_while_idem.
Qed.

Lemma trim_prefix (a s : str) : forallb is_ws a = true -> trim (a ++ s) = trim s.
Proof. intros Ha. unfold trim, trimStart. now rewrite drop_while_prefix. Qed.

(** [trim] takes white space off both ends and nothing else. *)
Lemma trim_decompose (s : str) :
  exists a b, s = a ++ trim s ++ b /\ forallb is_ws a = true /\ forallb is_ws b = true.
Proof.
  destruct (drop_while_split is_ws s) as [a [Ha Hs]].
  destruct (drop_while_split is_ws (rev (trimStart s))) as [b [Hb Hr]].
  exists a, (rev b). split; [|split; [exact Ha | now rewrite forallb_rev]].
  unfold trim, trimEnd. rewrite <- rev_app_distr, <- Hr, rev_involutive. exact Hs.
Qed.

(** ** The label lists of [run] *)

Lemma split_char_piece (sep : N) (x s : str) :
  forallb (fun c => negb (c =? sep)%N) x = true ->
  split_char sep (x ++ sep :: s) = x :: split_char sep s.
Proof.
  induction x as [|c x IH]; intros Hx.
  - cbn [app split_char]. now rewrite N.eqb_refl.
  - cbn [forallb] in Hx. apply andb_prop in Hx as [Hc Hx].
    apply negb_true_iff in Hc. cbn [app split_char]. now rewrite Hc, IH.
Qed.

Lemma split_char_last (sep : N) (x : str) :
  forallb (fun c => negb (c =? sep)%N) x = true -> split_char sep x = [x].
Proof.
  induction x as [|c x IH]; intros Hx; [reflexivity|].
  cbn [forallb] in Hx. apply andb_prop in Hx as [Hc Hx].
  apply negb_true_iff in Hc. cbn [split_char]. now rewrite Hc, IH.
Qed.

Lemma split_char_no_sep (sep : N) (s : str) :
  Forall (fun l => forallb (fun c => negb (c =? sep)%N) l = true) (split_char sep s).
Proof.
  induction s as [|c s IH]; [repeat constructor|].
  cbn [split_char]. destruct (c =? sep)%N eqn:Hc.
  - constructor; [reflexivity | exact IH].
  - destruct (split_char sep s) as [|l ls]; [repeat constructor; cbn; now rewrite Hc|].
    inversion IH; subst. constructor; [|assumption].
    cbn [forallb]. now rewrite Hc.
Qed.

(** X6: every label that [run] reads from a comma-separated input is
    non-empty, has no white space at its ends and holds no comma; blank
    items are dropped. *)
Theorem label_list_wellformed (input l : str) :
  In l (label_list input) ->
  l <> [] /\ trim l = l /\ forallb (fun c => negb (c =? 44)%N) l = true /\
  exists item, In item (split_char 44 input) /\ l = trim item.
Proof.
  unfold label_list. intros H. apply filter_In in H as [Hin Ht].
  apply in_map_iff in Hin as [item [<- Hitem]].
  split; [destruct (trim item); [discriminate Ht | discriminate]|].
  split; [apply trim_idem|]. split; [|now exists item].
  apply trim_forallb.
  pose proof (split_char_no_sep 44 input) as Hall.
  rewrite Forall_forall in Hall. apply Hall. now apply list_elem_of_In.
Qed.

(** X6 on an input with blanks around the commas and an empty item. *)
Lemma label_list_wellformed_witness :
  label_list (lit " feature , bug fix,, ") = [lit "feature"; lit "bug fix"] /\
  trim (lit "bug fix") = lit "bug fix".
Proof.
  split; [reflexivity|].
  apply (label_list_wellformed (lit " feature , bug fix,, ") (lit "bug fix")).
  right. left. reflexivity.
Defined.

Lemma split_char_join (l : str) (ls : list str) :
  Forall (fun x => forallb (fun c => negb (c =? 44)%N) x = true) (l :: ls) ->
  split_char 44 (join (lit ", ") (l :: ls)) = l :: List.map (cons 32%N) ls.
Proof.
  revert l. induction ls as [|l' ls IH]; intros l Hall; inversion Hall as [|? ? Hl Hls]; subst.
  - now apply split_char_last.
  - rewrite join_cons2.
    change (lit ", " ++ join (lit ", ") (l' :: ls))
      with (44%N :: 32%N :: join (lit ", ") (l' :: ls)).
    rewrite split_char_piece by exact Hl.
    cbn [split_char]. change (32 =? 44)%N with false. cbn iota.
    now rewrite (IH l' Hls).
Qed.

(** X7: a list of labels, each non-empty, without white space at its ends
    and without a comma, is read back from its items joined by a comma and
    a space. *)
Theorem label_list_join (ls : list str) :
  Forall (fun l => l <> [] /\ trim l = l /\
                   forallb (fun c => negb (c =? 44)%N) l = true) ls ->
  label_list (join (lit ", ") ls) = ls.
Proof.
  intros Hall. destruct ls as [|l ls]; [reflexivity|].
  unfold label_list. rewrite split_char_join.
  - assert (Hmap : forall xs pre,
              Forall (fun l => l <> [] /\ trim l = l /\
                               forallb (fun c => negb (c =? 44)%N) l = true) xs ->
              forallb is_ws pre = true ->
              List.filter truthy (List.map trim (List.map (app pre) xs)) = xs).
    { induction xs as [|x xs IHx]; intros pre Hx Hpre; [reflexivity|].
      inversion Hx as [|? ? [Hne [Ht _]] Hxs]; subst.
      cbn [List.map List.filter]. rewrite (trim_prefix pre x Hpre), Ht.
      destruct x; [contradiction|]. cbn [truthy]. now rewrite IHx. }
    inversion Hall as [|? ? [Hne [Ht _]] Hls]; subst.
    cbn [List.map List.filter]. rewrite Ht.
    destruct l; [contradiction|]. cbn [truthy]. f_equal.
    exact (Hmap ls [32%N] Hls eq_refl).
  - revert Hall. apply List.Forall_impl. intros x [_ [_ Hx]]. exact Hx.
Qed.

(** X7 on two labels. *)
Lemma label_list_join_witness :
  label_list (join (lit ", ") [lit "feature"; lit "bug fix"]) =
  [lit "feature"; lit "bug fix"].
Proof.
  apply (label_list_join [lit "feature"; lit "bug fix"]).
  repeat constructor; discriminate.
Defined.

(** ** [run] *)

Lemma some_included_iff (ls prLabels : list str) :
  some_included ls prLabels = true <-> exists l, In l ls /\ In l prLabels.
Proof.
  unfold some_included. rewrite existsb_exists. split.
  - intros [l [Hl Hin]]. apply bool_decide_eq_true in Hin.
    exists l. split; [exact Hl | now apply list_elem_of_In].
  - intros [l [Hl Hin]]. exists l. split; [exact Hl|].
    apply bool_decide_eq_true. now apply list_elem_of_In.
Qed.

Section RunFacts.
Variable getInput : str -> bool -> result str.
Variable token : option str.
Variable getOctokit : str -> Octokit.
Variable pull_request : option Payload.t.
Variables (now : str) (toISOString : str -> option str).
Variable create : Index.AIConfig -> str -> result (list Choice).
Variable generateWeeklyDigest : Octokit -> Index.AIConfig -> str -> str -> W str.
Variable fs_message : str -> str.

(** X9: with a valid configuration and a token, a run in entry mode is
    skipped exactly when there is no pull request, or it is not merged, or
    it carries an excluded label, or labels are required and it carries none
    of them. An excluded label wins over a required one. *)
Theorem run_skipped_iff (w : world) (cfg : Index.AIConfig)
    (cp wp inc exc : str) (c : N) (t : str) :
  getInput (lit "mode") true = Ok (lit "entry") ->
  Index.getAIConfig getInput = Ok cfg ->
  getInput (lit "changelog-path") false = Ok cp ->
  getInput (lit "weekly-path") false = Ok wp ->
  getInput (lit "include-labels") false = Ok inc ->
  getInput (lit "exclude-labels") false = Ok exc ->
  token = Some (c :: t) ->
  let prLabels p := List.map name (match Payload.labels p with
                                   | Some l => l
                                   | None => []
                                   end) in
  run getInput token getOctokit pull_request now toISOString create
    generateWeeklyDigest fs_message w =
    {| w_disk := w_disk w;
       actions := actions w ++ [SetOutput (lit "updated") (lit "false")] |} <->
  (pull_request = None \/
   exists p, pull_request = Some p /\
     (Payload.merged p = false \/
      (exists l, In l (label_list exc) /\ In l (prLabels p)) \/
      (label_list inc <> [] /\
       forall l, In l (label_list inc) -> ~ In l (prLabels p)))).
Proof.
  intros Hmode Hcfg Hcp Hwp Hinc Hexc Htok prLabels.
  unfold run, run_body, bindW, liftR, skip, emit, throwW.
  rewrite Hmode, Hcfg, Hcp, Hwp, Hinc, Hexc, Htok.
  rewrite decide_True by reflexivity.
  destruct pull_request as [p|]; [|split; [now left | reflexivity]].
  destruct (Payload.merged p) eqn:Hm; cbn [negb];
    [|split; [intros _; right; exists p; split; [reflexivity | now left] | reflexivity]].
  fold (prLabels p).
  destruct (some_included (label_list exc) (prLabels p)) eqn:Hex.
  { split; [|reflexivity]. intros _. right. exists p. split; [reflexivity|].
    right. left. now apply some_included_iff. }
  destruct ((0 <? length (label_list inc))%nat
            && negb (some_included (label_list inc) (prLabels p))) eqn:Hin.
  { split; [|reflexivity]. intros _. right. exists p. split; [reflexivity|].
    right. right. apply andb_prop in Hin as [Hlen Hnone]. split.
    - intros Hnil. rewrite Hnil in Hlen. discriminate Hlen.
    - intros l Hl Hp. apply negb_true_iff in Hnone.
      assert (some_included (label_list inc) (prLabels p) = true) as Hs
        by (apply some_included_iff; now exists l).
      congruence. }
  split.
  - unfold liftM. cbn [w_disk actions]. rewrite generateEntry_run.
    intros Heq. exfalso.
    destruct (fetchPRDetails _ _ _) as [details|e];
      [|injection Heq as Heq; apply app_inv_head in Heq; discriminate Heq].
    destruct (generateWithAI _ _ _ _) as [entry|e];
      [|injection Heq as Heq; apply app_inv_head in Heq; discriminate Heq].
    cbn [changelogPath] in Heq.
    destruct (files (w_disk w) !! or_else cp (lit "CHANGELOG.md")) as [[doc|]|];
      [| |destruct (uncreatable (w_disk w) (or_else cp (lit "CHANGELOG.md")))];
      injection Heq as Heq; rewrite <- ?app_assoc in *;
      try apply app_inv_head in Heq; try apply app_inv_head in H; discriminate.
  - intros [Hnone | [p' [Hp H]]]; [discriminate Hnone|].
    injection Hp as <-. exfalso. destruct H as [H | [H | [Hne H]]].
    + congruence.
    + apply some_included_iff in H. congruence.
    + apply andb_false_iff in Hin as [Hlen | Hsome].
      * destruct (label_list inc); [contradiction | discriminate Hlen].
      * apply negb_false_iff, some_included_iff in Hsome as [l [Hl Hp]].
        exact (H l Hl Hp).
Qed.

(** X10: [run] reports the first of its checks that fails, in the order of
    the code: the read of the required input [mode]; then the endpoint
    configuration, whatever the mode that was read; then a missing or empty
    token, whatever the mode and the pull request; then a mode other than
    [entry] and [weekly]. Each time the failure message is the only action
    and the disk stays as it was. *)
Theorem run_failure_order (w : world) :
  let failed m := {| w_disk := w_disk w; actions := actions w ++ [SetFailed m] |} in
  let result_of := run getInput token getOctokit pull_request now toISOString create
                     generateWeeklyDigest fs_message w in
  (forall e,
     getInput (lit "mode") true = Throw e ->
     result_of = failed (message_of fs_message e)) /\
  (forall mode e,
     getInput (lit "mode") true = Ok mode ->
     Index.getAIConfig getInput = Throw e ->
     result_of = failed (message_of fs_message e)) /\
  (forall mode cfg cp wp inc exc,
     getInput (lit "mode") true = Ok mode ->
     Index.getAIConfig getInput = Ok cfg ->
     getInput (lit "changelog-path") false = Ok cp ->
     getInput (lit "weekly-path") false = Ok wp ->
     getInput (lit "include-labels") false = Ok inc ->
     getInput (lit "exclude-labels") false = Ok exc ->
     (token = None \/ token = Some [] ->
      result_of = failed (lit "GITHUB_TOKEN environment variable is required")) /\
     (forall c t, token = Some (c :: t) ->
      mode <> lit "entry" -> mode <> lit "weekly" ->
      result_of = failed (lit "Unknown mode: " ++ mode ++
                          lit ". Use 'entry' or 'weekly'."))).
Proof.
  intros failed result_of. subst failed result_of.
  unfold run, run_body, bindW, liftR, throwW. split; [|split].
  - intros e Hmode. now rewrite Hmode.
  - intros mode e Hmode Hcfg. now rewrite Hmode, Hcfg.
  - intros mode cfg cp wp inc exc Hmode Hcfg Hcp Hwp Hinc Hexc.
    rewrite Hmode, Hcfg, Hcp, Hwp, Hinc, Hexc. split.
    + intros [-> | ->]; reflexivity.
    + intros c t -> Hentry Hweekly.
      now rewrite (decide_False (P := mode = lit "entry")),
                  (decide_False (P := mode = lit "weekly")).
Qed.
End RunFacts.



(** X9 on a merged pull request that carries a required and an excluded
    label: it is skipped. *)
Lemma run_skipped_iff_witness :
  sample_run "entry" "feature" "skip-changelog" (Some (lit "t"))
    (Some (sample_payload true ["feature"; "skip-changelog"]%string))
    (Some (lit "New.")) =
  {| w_disk := empty_disk; actions := [SetOutput (lit "updated") (lit "false")] |}.
Proof.
  eapply (proj2 (run_skipped_iff (run_inputs "entry" "feature" "skip-changelog")
                   (Some (lit "t")) (fun _ => sample_octokit 7)
                   (Some (sample_payload true ["feature"; "skip-changelog"]%string)) []
                   sample_iso (sample_create (Some (lit "New."))) no_digest
                   (fun code => code) fresh_world
                   _ _ _ _ _ _ _ eq_refl eq_refl eq_refl eq_refl eq_refl eq_refl eq_refl)).
  right. eexists. split; [reflexivity|]. right. left.
  exists (lit "skip-changelog"). split; [left; reflexivity | right; left; reflexivity].
Defined.

(** X10 without a token, and without the input [mode]: the failure is the
    missing token, though the mode is unknown as well; and it is the missing
    mode, though the provider is unknown as well. *)
Lemma run_failure_order_witness :
  sample_run "bogus" "" "" None None None =
    {| w_disk := empty_disk;
       actions := [SetFailed (lit "GITHUB_TOKEN environment variable is required")] |} /\
  run inputs_without_mode
    None (fun _ => sample_octokit 7) None [] sample_iso (sample_create None)
    no_digest (fun code => code) fresh_world =
    {| w_disk := empty_disk;
       actions := [SetFailed (lit "Input required and not supplied: mode")] |}.
Proof.
  split.
  - eapply (proj1 (proj2 (proj2 (run_failure_order (run_inputs "bogus" "" "")
                                   None (fun _ => sample_octokit 7) None []
                                   sample_iso (sample_create None) no_digest
                                   (fun code => code) fresh_world))
                     _ _ _ _ _ _ eq_refl eq_refl eq_refl eq_refl eq_refl eq_refl)).
    left. reflexivity.
  - apply (proj1 (run_failure_order inputs_without_mode None
                    (fun _ => sample_octokit 7) None []
                    sample_iso (sample_create None) no_digest
                    (fun code => code) fresh_world)
             (Error (lit "Input required and not supplied: mode"))).
    reflexivity.
Defined.

(** ** More on the aggregation *)

Lemma filter_truthy_nonempty (l : list (option str)) :
  Forall (fun x => x <> []) (filter_truthy l).
Proof.
  induction l as [|[[|c s]|] l IH]; cbn [filter_truthy]; try exact IH.
  - constructor.
  - constructor; [discriminate | exact IH].
Qed.

Lemma set_spread_from_sub (seen l : list str) (x : str) :
  In x (set_spread_from seen l) -> In x l.
Proof. intros H. now apply set_spread_from_In in H as [H _]. Qed.

(** X11: the details of a successful aggregation never name an empty
    author or an empty reviewer, and carry a merge time whenever the clock
    gives one; an absent or empty body, login or merge time of the pull
    request is replaced by its default. *)
Theorem details_have_no_empty_names (now : str) (pr : PRData.t) (octokit : Octokit)
    (cs : list Commit) (rs : list Review.t) (fs : list ChangedFile) :
  listCommits octokit (PRData.number pr) = Ok cs ->
  listReviews octokit (PRData.number pr) = Ok rs ->
  listFiles octokit (PRData.number pr) = Ok fs ->
  exists d, fetchPRDetails now pr octokit = Ok d /\
    author d <> [] /\
    Forall (fun r => r <> []) (reviewers d) /\
    (now <> [] -> mergedAt d <> []) /\
    (PRData.merged_at pr = None \/ PRData.merged_at pr = Some [] -> mergedAt d = now) /\
    (PRData.user pr = Some {| login := [] |} -> author d = lit "unknown") /\
    (body d = [] <-> PRData.body pr = None \/ PRData.body pr = Some []).
Proof.
  intros Hcs Hrs Hfs. eexists.
  split; [apply (fetchPRDetails_ok _ _ _ _ _ _ Hcs Hrs Hfs)|].
  cbn [author reviewers mergedAt body]. repeat apply conj.
  - destruct (PRData.user pr) as [[[|c l]]|]; discriminate.
  - unfold reviewers_of, set_spread. apply Forall_forall. intros x Hx.
    apply list_elem_of_In, set_spread_from_sub in Hx.
    pose proof (filter_truthy_nonempty
                  (List.map (fun r => user_login (Review.user r))
                     (List.filter (fun r => bool_decide (Review.state r = lit "APPROVED")) rs)))
      as Hall.
    rewrite Forall_forall in Hall. apply Hall. now apply list_elem_of_In.
  - intros Hnow. destruct (PRData.merged_at pr) as [[|c l]|]; cbn; try exact Hnow.
    discriminate.
  - intros [-> | ->]; reflexivity.
  - now intros ->.
  - destruct (PRData.body pr) as [[|c l]|]; cbn; intros H; auto; discriminate H.
  - intros [-> | ->]; reflexivity.
Qed.

(** X11 on a pull request whose user has an empty login and which has no
    merge time. *)
Lemma details_have_no_empty_names_witness :
  exists d,
    fetchPRDetails (lit "2024-03-02T10:00:00.000Z")
      {| PRData.number := 42; PRData.title := lit "Add dark mode";
         PRData.body := None; PRData.user := Some {| login := [] |};
         PRData.merged_at := None; PRData.labels := None |}
      (sample_octokit 7) = Ok d /\
    author d = lit "unknown" /\ mergedAt d = lit "2024-03-02T10:00:00.000Z".
Proof.
  destruct (details_have_no_empty_names (lit "2024-03-02T10:00:00.000Z")
              {| PRData.number := 42; PRData.title := lit "Add dark mode";
                 PRData.body := None; PRData.user := Some {| login := [] |};
                 PRData.merged_at := None; PRData.labels := None |}
              (sample_octokit 7) _ _ _ eq_refl eq_refl eq_refl)
    as [d [Hd [_ [_ [_ [Hm [Ha _]]]]]]].
  exists d. split; [exact Hd|]. split; [now apply Ha | apply Hm; now left].
Defined.

Lemma set_spread_from_snoc (seen l : list str) (x : str) :
  set_spread_from seen (l ++ [x]) =
  set_spread_from seen l ++ (if bool_decide (x ∈ seen ++ l) then [] else [x]).
Proof.
  revert seen. induction l as [|y l IH]; intros seen; cbn [app set_spread_from].
  - rewrite app_nil_r. destruct (decide (x ∈ seen)) as [Hx|Hx].
    + now rewrite bool_decide_eq_true_2.
    + now rewrite bool_decide_eq_false_2.
  - destruct (decide (y ∈ seen)) as [Hy|Hy].
    + rewrite IH.
      rewrite (bool_decide_ext (x ∈ seen ++ l) (x ∈ seen ++ y :: l)); [reflexivity|].
      rewrite !elem_of_app, elem_of_cons. split; [tauto|].
      intros [H | [-> | H]]; tauto.
    + cbn [app]. rewrite IH.
      rewrite (bool_decide_ext (x ∈ (y :: seen) ++ l) (x ∈ seen ++ y :: l)); [reflexivity|].
      rewrite !elem_of_app, !elem_of_cons. tauto.
Qed.

Lemma set_spread_In (l : list str) (x : str) : x ∈ set_spread l <-> x ∈ l.
Proof.
  unfold set_spread. rewrite !list_elem_of_In, set_spread_from_In. cbn. tauto.
Qed.

(** X12: the reviewers stand in the order of their first approval. One more
    review at the end of the listing adds its login behind the others when
    it approves, has a non-empty login and that login is new, and changes
    nothing otherwise: a later review never takes a reviewer away. *)
Theorem reviewers_grow_in_order (reviews : list Review.t) (r : Review.t) :
  reviewers_of (reviews ++ [r]) =
  reviewers_of reviews ++
  match user_login (Review.user r) with
  | Some (c :: l) =>
      if bool_decide (Review.state r = lit "APPROVED")
         && negb (bool_decide (c :: l ∈ reviewers_of reviews))
      then [c :: l] else []
  | _ => []
  end.
Proof.
  unfold reviewers_of at 1 2. rewrite List.filter_app. cbn [List.filter].
  destruct (bool_decide (Review.state r = lit "APPROVED")); cbn [andb].
  - rewrite List.map_app. cbn [List.map].
    set (approvals := List.map (fun r0 => user_login (Review.user r0))
                        (List.filter _ reviews)).
    assert (Happ : forall a b, filter_truthy (a ++ b) = filter_truthy a ++ filter_truthy b).
    { induction a as [|[[|c s]|] a IHa]; intros b; cbn [app filter_truthy];
        rewrite ?IHa; reflexivity. }
    rewrite Happ. destruct (user_login (Review.user r)) as [[|c l]|];
      cbn [filter_truthy]; rewrite ?app_nil_r; try reflexivity.
    unfold set_spread. rewrite set_spread_from_snoc. f_equal. cbn [app].
    rewrite <- (bool_decide_ext _ _ (set_spread_In (filter_truthy approvals) (c :: l))).
    fold (reviewers_of reviews). unfold reviewers_of, approvals.
    now destruct (bool_decide _).
  - rewrite app_nil_r. destruct (user_login (Review.user r)) as [[|c l]|];
      now rewrite app_nil_r.
Qed.

(** ** More on the configuration *)

(** X13: a failing read of the input [api-key] makes the resolution throw
    that error, whatever the provider; and every configuration that the
    resolution returns has the key that was read, an endpoint that starts
    with [http] and a model that is not empty. *)
Theorem getAIConfig_result (getInput : str -> bool -> result str) :
  (forall e, getInput (lit "api-key") true = Throw e ->
     Index.getAIConfig getInput = Throw e) /\
  (forall cfg, Index.getAIConfig getInput = Ok cfg ->
     getInput (lit "api-key") true = Ok (Index.apiKey cfg) /\
     startsWith (lit "http") (Index.baseURL cfg) = true /\
     Index.model cfg <> []).
Proof.
  unfold Index.getAIConfig. split.
  - now intros e ->.
  - intros cfg. destruct (getInput (lit "api-key") true) as [k|e]; [|discriminate].
    destruct (getInput (lit "provider") false) as [p|e]; [|discriminate].
    destruct (getInput (lit "model") false) as [m|e]; [|discriminate].
    cbn [bindR].
    assert (Hm : or_else m (lit "gpt-4o-mini") <> []) by (destruct m; discriminate).
    repeat case_decide.
    + intros Heq. injection Heq as <-. now repeat split.
    + intros Heq. injection Heq as <-. now repeat split.
    + destruct (startsWith (lit "http") (or_else p (lit "openai"))) eqn:Hh;
        [|discriminate].
      intros Heq. injection Heq as <-. now repeat split.
Qed.

(** X13 for a custom endpoint. *)
Lemma getAIConfig_result_witness :
  exists cfg, Index.getAIConfig (sample_inputs "http://localhost:8080/v1") = Ok cfg /\
    startsWith (lit "http") (Index.baseURL cfg) = true /\ Index.model cfg <> [].
Proof.
  eexists. split; [reflexivity|].
  apply (proj2 (getAIConfig_result (sample_inputs "http://localhost:8080/v1")) _ eq_refl).
Defined.

(** ** More on the generated entry *)

Lemma split_head_decompose (c : N) (s : str) :
  exists rest, s = split_head [c] s ++ rest /\
    forallb (fun x => negb (c =? x)%N) (split_head [c] s) = true /\
    (rest = [] \/ exists rest', rest = c :: rest').
Proof.
  induction s as [|a s [rest [Hs [Hno Hrest]]]].
  - exists []. repeat split. now left.
  - cbn [split_head startsWith]. rewrite andb_true_r.
    destruct (c =? a)%N eqn:Ha.
    + apply N.eqb_eq in Ha. subst a. exists (c :: s). repeat split.
      right. now exists s.
    + exists rest. cbn [app forallb]. rewrite Ha, Hno. repeat split.
      * now rewrite <- Hs.
      * exact Hrest.
Qed.

(** X14: when the merge time is a date, the formatted entry is a level-2
    heading with the ISO time up to its first [T], an empty line, the model
    text without the white space at its ends, an empty line, the
    attribution, an empty line, the separator and an empty line. *)
Theorem formatEntry_shape (toISOString : str -> option str) (aiContent iso : str)
    (d : PullRequestDetails.t) :
  toISOString (mergedAt d) = Some iso ->
  exists date time text before after,
    iso = date ++ time /\
    forallb (fun x => negb (84 =? x)%N) date = true /\
    (time = [] \/ exists time', time = 84%N :: time') /\
    aiContent = before ++ text ++ after /\
    forallb is_ws before = true /\ forallb is_ws after = true /\ trim text = text /\
    formatEntry toISOString aiContent d =
      Ok (lit "## " ++ date ++ nl ++ nl ++ text ++ nl ++ nl ++
          attribution d ++ nl ++ nl ++ lit "---" ++ nl ++ nl).
Proof.
  intros Hiso.
  destruct (split_head_decompose 84 iso) as [time [Hd [Hno Htime]]].
  destruct (trim_decompose aiContent) as [a [b [Hc [Ha Hb]]]].
  exists (split_head (lit "T") iso), time, (trim aiContent), a, b.
  repeat split; try assumption.
  - apply trim_idem.
  - unfold formatEntry. now rewrite Hiso.
Qed.

(** X14 on the sample time and a text with white space around it. *)
Lemma formatEntry_shape_witness :
  exists date time text before after,
    lit "2024-03-01T00:00:00.000Z" = date ++ time /\
    forallb (fun x => negb (84 =? x)%N) date = true /\
    (time = [] \/ exists time', time = 84%N :: time') /\
    lit "  New." ++ nl = before ++ text ++ after /\
    forallb is_ws before = true /\ forallb is_ws after = true /\ trim text = text /\
    formatEntry sample_iso (lit "  New." ++ nl) (details_of (lit "alice") [] []) =
      Ok (lit "## " ++ date ++ nl ++ nl ++ text ++ nl ++ nl ++
          attribution (details_of (lit "alice") [] []) ++ nl ++ nl ++
          lit "---" ++ nl ++ nl).
Proof.
  apply (formatEntry_shape sample_iso (lit "  New." ++ nl)
           (lit "2024-03-01T00:00:00.000Z") (details_of (lit "alice") [] [])).
  reflexivity.
Defined.

(** X15: a completion that holds white space only is not taken for an empty
    one: the entry is made, with nothing between its heading and its
    attribution. *)
Theorem blank_completion_is_accepted (toISOString : str -> option str)
    (create : Index.AIConfig -> str -> result (list Choice))
    (d : PullRequestDetails.t) (cfg : Index.AIConfig)
    (choices : list Choice) (text iso : str) :
  create cfg (buildPrompt d) = Ok choices ->
  first_content choices = Some text ->
  text <> [] -> forallb is_ws text = true ->
  toISOString (mergedAt d) = Some iso ->
  generateWithAI toISOString create d cfg =
    Ok (lit "## " ++ split_head (lit "T") iso ++ nl ++ nl ++ nl ++ nl ++
        attribution d ++ nl ++ nl ++ lit "---" ++ nl ++ nl).
Proof.
  intros Hc Hf Hne Hb Hiso. unfold generateWithAI. rewrite Hc. cbn [bindR].
  rewrite Hf. destruct text as [|c t]; [contradiction|].
  unfold formatEntry. rewrite Hiso. cbn [bindR].
  now rewrite (trim_blank (c :: t) Hb).
Qed.

(** X15 for a completion of one space and a line feed. *)
Lemma blank_completion_is_accepted_witness :
  generateWithAI sample_iso (sample_create (Some (lit " " ++ nl)))
    (details_of (lit "alice") [] []) sample_config =
  Ok (lit "## 2024-03-01" ++ nl ++ nl ++ nl ++ nl ++
      lit "**Shipped by** @alice" ++ nl ++ nl ++ lit "---" ++ nl ++ nl).
Proof.
  apply (blank_completion_is_accepted sample_iso (sample_create (Some (lit " " ++ nl)))
           (details_of (lit "alice") [] []) sample_config
           _ (lit " " ++ nl) (lit "2024-03-01T00:00:00.000Z") eq_refl eq_refl).
  - discriminate.
  - reflexivity.
  - reflexivity.
Defined.

(** X16: when the merge time of the details is no date, the run throws the
    range error of [toISOString] behind the completion call, and nothing is
    written. *)
Theorem invalid_merge_time_writes_nothing (now : str)
    (toISOString : str -> option str)
    (create : Index.AIConfig -> str -> result (list Choice))
    (options : GenerateEntryOptions) (d : disk)
    (details : PullRequestDetails.t) (choices : list Choice) (c : N) (text : str) :
  fetchPRDetails now (pr options) (octokit options) = Ok details ->
  create (aiConfig options) (buildPrompt details) = Ok choices ->
  first_content choices = Some (c :: text) ->
  toISOString (mergedAt details) = None ->
  generateEntry now toISOString create options d =
    (Throw (RangeError (lit "Invalid time value")), d).
Proof.
  intros Hd Hc Hf Hiso. rewrite generateEntry_run, Hd.
  unfold generateWithAI. rewrite Hc. cbn [bindR]. rewrite Hf.
  unfold formatEntry. now rewrite Hiso.
Qed.

(** X16 on the sample run with a clock that gives no date. *)
Lemma invalid_merge_time_writes_nothing_witness :
  generateEntry [] (fun _ => None) (sample_create (Some (lit "New.")))
    (sample_options 7) empty_disk =
  (Throw (RangeError (lit "Invalid time value")), empty_disk).
Proof.
  eapply (invalid_merge_time_writes_nothing [] (fun _ => None)
            (sample_create (Some (lit "New."))) (sample_options 7) empty_disk);
    reflexivity.
Defined.

(** X17: the prompt takes from the details the title, the body, the labels,
    the first lines of the first 5 commit messages and the first 10 paths,
    and nothing else: details that agree on these give the same prompt,
    whatever their authors, reviewers, merge times, further commits and
    paths, and the text behind the first line of a commit message. *)
Theorem buildPrompt_reads_only (d d' : PullRequestDetails.t) :
  title d = title d' -> body d = body d' -> labels d = labels d' ->
  List.map first_line (firstn 5 (commits d)) =
    List.map first_line (firstn 5 (commits d')) ->
  firstn 10 (filesChanged d) = firstn 10 (filesChanged d') ->
  buildPrompt d = buildPrompt d'.
Proof.
  intros Ht Hb Hl Hc Hf. unfold buildPrompt, commitSummary, filesSummary, slice_to.
  rewrite Ht, Hb, Hl, Hf.
  assert (Hs : forall cs, List.map (fun c => lit "- " ++ split_head nl c) cs =
                          List.map (app (lit "- ")) (List.map first_line cs)).
  { intros cs. now rewrite List.map_map. }
  now rewrite !Hs, Hc.
Qed.

(** X17 on seven commits against their first five first lines, with other
    people and another merge time. *)
Lemma buildPrompt_reads_only_witness :
  buildPrompt (details_of (lit "alice") [lit "bob"] seven_commits) =
  buildPrompt {| title := lit "Add dark mode"; body := []; author := lit "zoe";
                 reviewers := [];
                 commits := [lit "one"; lit "two"; lit "three"; lit "four"; lit "five"];
                 filesChanged := [lit "src/theme.ts"]; labels := [];
                 mergedAt := [] |}.
Proof.
  apply buildPrompt_reads_only; reflexivity.
Defined.

(** X18: a run of the pipeline leaves every path but the changelog path as
    it was, whether it returns or throws. *)
Theorem generateEntry_touches_one_path (now : str) (toISOString : str -> option str)
    (create : Index.AIConfig -> str -> result (list Choice))
    (options : GenerateEntryOptions) (d : disk) (q : str) :
  q <> changelogPath options ->
  files (snd (generateEntry now toISOString create options d)) !! q = files d !! q.
Proof.
  intros Hq. rewrite generateEntry_run.
  destruct (fetchPRDetails _ _ _) as [details|e]; [|reflexivity].
  destruct (generateWithAI _ _ _ _) as [entry|e]; [|reflexivity].
  destruct (files d !! changelogPath options) as [[doc|]|];
    [| |destruct (uncreatable d (changelogPath options))];
    cbn [snd written files]; try reflexivity; now rewrite lookup_insert_ne.
Qed.

(** X18 on the sample run and a second file. *)
Lemma generateEntry_touches_one_path_witness :
  files (snd (generateEntry [] sample_iso (sample_create (Some (lit "New.")))
                (sample_options 7) (disk_with (lit "README.md") (lit "Hello"))))
    !! lit "README.md" = Some (File (lit "Hello")).
Proof.
  rewrite (generateEntry_touches_one_path [] sample_iso
             (sample_create (Some (lit "New."))) (sample_options 7)
             (disk_with (lit "README.md") (lit "Hello")) (lit "README.md")).
  - vm_compute. reflexivity.
  - discriminate.
Defined.
